(** * Box normalisation of [dataset/extract_patches.py]

    A shallow embedding of [confine_box], [pad_to_square] and of the
    per-label loop of [extract_patch_data], with the properties of the
    clamp / pad-to-square pipeline stated and proved over it.

    Data model.  A box is the Python list [label_dict['bbox']]: it is built
    by [[round(float(x)) for x in content[4:8]]], and [convert_label_to_dict]
    reads [content[14]] before it returns, so the list always has exactly
    four entries, each a Python [int].  Python integers are unbounded, hence
    [Z].  The list is mutated in place by both functions; here every
    function returns the list's final contents.

    [padding = abs(width - height) / 2] is Python's true division of two
    ints: the binary64 number nearest to the quotient, or an
    [OverflowError] when there is none.  Every binary64 number is a
    rational, so [padding] is that rational, and [math.ceil] and
    [math.floor], which return exact ints, are [Qceiling] and [Qfloor].

    The crop of line 106 is a NumPy slice; [cv2.resize] raises on an empty
    one, and nothing catches that exception, nor the [OverflowError]. *)

From Stdlib Require Import ZArith QArith Qround List Ascii String Lia
  ZifyBool.
Import ListNotations.

Local Open Scope Z_scope.

(** ** Boxes *)

(** [box[0]], [box[1]], [box[2]], [box[3]]: left, top, right, bottom. *)
Record Box : Set := mkBox {
  x_min : Z;   (* box[0] *)
  y_min : Z;   (* box[1] *)
  x_max : Z;   (* box[2] *)
  y_max : Z    (* box[3] *)
}.

(** Item assignment [box[k] = v]. *)
Definition set_x_min (box : Box) (v : Z) : Box :=
  mkBox v (y_min box) (x_max box) (y_max box).
Definition set_y_min (box : Box) (v : Z) : Box :=
  mkBox (x_min box) v (x_max box) (y_max box).
Definition set_x_max (box : Box) (v : Z) : Box :=
  mkBox (x_min box) (y_min box) v (y_max box).
Definition set_y_max (box : Box) (v : Z) : Box :=
  mkBox (x_min box) (y_min box) (x_max box) v.

(** ** Exceptions *)

(** [ValueError('Cannot fit padded box in image, tried {} for input {}')]:
    the message carries the box as it stands and the copy taken on entry.
    [OverflowError] is the one of the division of line 188, 'integer
    division result too large for a float'. *)
Inductive exn : Set :=
| ValueError (tried original : Box)
| OverflowError.

Inductive outcome (A : Type) : Type :=
| Returns (a : A)
| Raises (e : exn).
Arguments Returns {A} a.
Arguments Raises {A} e.

(** ** [confine_box] (lines 211-226) *)

Definition confine_box (box : Box) (ymin xmin ymax xmax : Z) : Box :=
  let box := set_x_min box (Z.max xmin (Z.min xmax (x_min box))) in
  let box := set_y_min box (Z.max ymin (Z.min ymax (y_min box))) in
  let box := set_x_max box (Z.max xmin (Z.min xmax (x_max box))) in
  let box := set_y_max box (Z.max ymin (Z.min ymax (y_max box))) in
  box.

(** ** [pad_to_square] (lines 170-208) *)

(** [n / 2^s] rounded to the nearest integer, a tie going to the even
    one. *)
Definition round_half_even (n s : Z) : Z :=
  let m := n / 2 ^ s in
  let r := n mod 2 ^ s in
  if 2 * r <? 2 ^ s then m
  else if 2 ^ s <? 2 * r then m + 1
  else if Z.even m then m else m + 1.

(** [n / 2] for a Python int [n >= 0]: the binary64 number nearest to the
    quotient, ties to even, as the rational it is; [None] is the
    [OverflowError] raised when that number would be [2^1024] or more.  An
    int of at most 53 significant bits is halved exactly; a longer one
    loses the bits past the 53rd, [dropped] of them, by rounding. *)
Definition int_true_divide_2 (n : Z) : option Q :=
  let dropped := Z.log2 n - 52 in
  if dropped <=? 0 then Some (inject_Z n / 2)%Q
  else
    let value := round_half_even n dropped * 2 ^ (dropped - 1) in
    if 2 ^ 1024 <=? value then None else Some (inject_Z value).

(** [padding = abs(width - height) / 2] (line 188) *)
Definition padding (width height : Z) : option Q :=
  int_true_divide_2 (Z.abs (width - height)).

(** Lines 189-206: the in-place updates, for the value of [padding]. *)
Definition pad_box (box : Box) (ymin xmin ymax xmax : Z) (padding : Q) : Box :=
  let height := y_max box - y_min box in
  let width := x_max box - x_min box in
  if width >? height then
    let box := set_y_min box (y_min box - Qceiling padding) in
    let box := set_y_max box (y_max box + Qfloor padding) in
    let box :=
      if y_min box <? ymin then
        let box := set_y_max box (y_max box + (ymin - y_min box)) in
        set_y_min box ymin
      else box in
    let box :=
      if y_max box >? ymax then
        let box := set_y_min box (y_min box - (y_max box - ymax)) in
        set_y_max box ymax
      else box in
    box
  else if height >? width then
    let box := set_x_min box (x_min box - Qceiling padding) in
    let box := set_x_max box (x_max box + Qfloor padding) in
    let box :=
      if x_min box <? xmin then
        let box := set_x_max box (x_max box + (xmin - x_min box)) in
        set_x_min box xmin
      else box in
    let box :=
      if x_max box >? xmax then
        let box := set_x_min box (x_min box - (x_max box - xmax)) in
        set_x_max box xmax
      else box in
    box
  else box.

(** Line 207: the test guarding the [raise]. *)
Definition out_of_bounds (box : Box) (ymin xmin ymax xmax : Z) : bool :=
  (x_min box <? xmin) || (x_max box >? xmax) ||
  (y_min box <? ymin) || (y_max box >? ymax).

Definition pad_to_square (box : Box) (ymin xmin ymax xmax : Z)
  : outcome Box :=
  let original := box in
  let height := y_max box - y_min box in
  let width := x_max box - x_min box in
  match padding width height with
  | None => Raises OverflowError
  | Some padding =>
      let box := pad_box box ymin xmin ymax xmax padding in
      if out_of_bounds box ymin xmin ymax xmax
      then Raises (ValueError box original)
      else Returns box
  end.

(** ** The per-label loop of [extract_patch_data] (lines 90-112) *)

(** The two keys of [label_dict] the loop reads. *)
Record Label : Set := mkLabel {
  class : string;
  bbox : Box
}.

(** What one iteration does to the outside world: one of the two warnings
    followed by [continue]; the crop of [image[box[1]:box[3],
    box[0]:box[2]]] resized and written as patch [i] together with its
    class file; or an exception that nothing catches, which leaves
    [extract_patch_data]: the [OverflowError] of [pad_to_square], which
    [except ValueError] lets through, and the error [cv2.resize] raises on
    an empty crop. *)
Inductive event : Set :=
| PrintCannotFit (e : exn)
| PrintZeroArea (box : Box)
| WritePatch (i : nat) (box : Box) (class_label : string)
| RaiseOverflowError
| RaiseResizeError (box : Box).

Definition ends_loop (ev : event) : bool :=
  match ev with
  | RaiseOverflowError | RaiseResizeError _ => true
  | _ => false
  end.

(** The length of [a[start:stop]] for an axis of length [n]: a negative
    index counts from the end, and both ends are clipped to the axis. *)
Definition slice_len (n start stop : Z) : Z :=
  let clip k := if k <? 0 then Z.max 0 (k + n) else Z.min k n in
  Z.max 0 (clip stop - clip start).

(** [image[box[1]:box[3], box[0]:box[2]]] has no pixel. *)
Definition patch_empty (shape0 shape1 : Z) (box : Box) : bool :=
  (slice_len shape0 (y_min box) (y_max box) =? 0) ||
  (slice_len shape1 (x_min box) (x_max box) =? 0).

(** Lines 91-112 for label number [i]; [shape0], [shape1] are
    [image.shape[0]] and [image.shape[1]], and the patch size is
    positive. *)
Definition label_step (shape0 shape1 : Z) (i : nat) (label : Label) : event :=
  let box := bbox label in
  let class_label := class label in
  let box := confine_box box 0 0 shape0 shape1 in
  match pad_to_square box 0 0 shape0 shape1 with
  | Raises (ValueError tried original) =>
      PrintCannotFit (ValueError tried original)
  | Raises OverflowError => RaiseOverflowError
  | Returns box =>
      if (x_max box - x_min box =? 0) || (y_max box - y_min box =? 0)
      then PrintZeroArea box
      else if patch_empty shape0 shape1 box then RaiseResizeError box
      else WritePatch i box class_label
  end.

(** [for i, label in enumerate(labels)], from index [i] on, up to the
    first exception that leaves the loop. *)
Fixpoint label_loop (shape0 shape1 : Z) (i : nat) (labels : list Label)
  : list event :=
  match labels with
  | [] => []
  | label :: rest =>
      let ev := label_step shape0 shape1 i label in
      if ends_loop ev then [ev]
      else ev :: label_loop shape0 shape1 (S i) rest
  end.

Definition extract_patch_data (shape0 shape1 : Z) (labels : list Label)
  : list event :=
  label_loop shape0 shape1 0 labels.

(** ** Vocabulary of the properties *)

Definition width (box : Box) : Z := x_max box - x_min box.
Definition height (box : Box) : Z := y_max box - y_min box.

(** The containment the final test of [pad_to_square] enforces. *)
Definition inside (box : Box) (ymin xmin ymax xmax : Z) : Prop :=
  xmin <= x_min box /\ x_max box <= xmax /\
  ymin <= y_min box /\ y_max box <= ymax.

(** All four coordinates within the interval of their axis. *)
Definition coords_within (box : Box) (ymin xmin ymax xmax : Z) : Prop :=
  (xmin <= x_min box <= xmax) /\ (ymin <= y_min box <= ymax) /\
  (xmin <= x_max box <= xmax) /\ (ymin <= y_max box <= ymax).

Definition square (box : Box) : Prop := width box = height box.

(** The contents of the caller's list, [given] on entry, once
    [pad_to_square] is left by [return] or by [raise]: the list is updated
    in place, and line 188 raises before any update. *)
Definition box_after (given : Box) (o : outcome Box) : Box :=
  match o with
  | Returns box => box
  | Raises (ValueError tried _) => tried
  | Raises OverflowError => given
  end.

(** The test of line 102 on the box it is given. *)
Definition zero_area (box : Box) : Prop := width box = 0 \/ height box = 0.

(** The condition of the infeasibility property, in the spec's words: the
    longer dimension of the box exceeds the span of the bounds along the
    axis of the shorter dimension.  For a box of equal width and height
    either axis is the shorter one, and the smaller span is taken. *)
Definition longer_dimension (box : Box) : Z := Z.max (width box) (height box).

Definition shorter_axis_span (box : Box) (ymin xmin ymax xmax : Z) : Z :=
  if width box >? height box then ymax - ymin
  else if height box >? width box then xmax - xmin
  else Z.min (xmax - xmin) (ymax - ymin).

Definition infeasible (box : Box) (ymin xmin ymax xmax : Z) : Prop :=
  longer_dimension box > shorter_axis_span box ymin xmin ymax xmax.

(** Exchange of the two axes, on boxes. *)
Definition transpose (box : Box) : Box :=
  mkBox (y_min box) (x_min box) (y_max box) (x_max box).

(** The points of the half-open rectangle of a box.  For a box with
    non-negative coordinates these are the pixels, column [px] and row
    [py], of the slice [image[y_min:y_max, x_min:x_max]]. *)
Definition covers (box : Box) (px py : Z) : Prop :=
  x_min box <= px < x_max box /\ y_min box <= py < y_max box.

(** ** [convert_label_to_dict] (lines 138-167) *)

(** The built-ins the parser calls, taken as they are: [label.strip()],
    [float(s)], [int(s)] and [round(x)].  [None] stands for the exception
    the built-in raises: [ValueError] for [float] and [int], [ValueError]
    (nan) or [OverflowError] (infinity) for [round]. *)
Class Builtins : Type := {
  pyfloat : Type;
  py_strip : string -> string;
  py_float : string -> option pyfloat;
  py_int : string -> option Z;
  py_round : pyfloat -> option Z
}.

(** The exceptions that leave [convert_label_to_dict], each with the text
    that caused it. *)
Inductive label_exn : Set :=
| IndexError
| FloatError (s : string)
| IntError (s : string)
| RoundError (s : string).

Inductive parsed (A : Type) : Type :=
| Parsed (a : A)
| Failed (e : label_exn).
Arguments Parsed {A} a.
Arguments Failed {A} e.

Definition bind {A B : Type} (m : parsed A) (k : A -> parsed B) : parsed B :=
  match m with
  | Parsed a => k a
  | Failed e => Failed e
  end.

Notation "x <- m ;; k" := (bind m (fun x => k))
  (at level 61, m at next level, right associativity).

(** [s.split(sep)] for a one-character separator: every occurrence cuts,
    so adjacent separators give empty fields and the result is never the
    empty list.  The text is a string of bytes; the byte of the space
    occurs in UTF-8 as the space only. *)
Fixpoint split (sep : ascii) (s : string) : list string :=
  match s with
  | EmptyString => [EmptyString]
  | String c rest =>
      if Ascii.eqb c sep then EmptyString :: split sep rest
      else match split sep rest with
           | [] => [String c EmptyString]
           | field :: fields => String c field :: fields
           end
  end.

(** [content[k]] *)
Definition item (content : list string) (k : nat) : parsed string :=
  match nth_error content k with
  | Some s => Parsed s
  | None => Failed IndexError
  end.

(** [content[i:j]] *)
Definition slice (content : list string) (i j : nat) : list string :=
  firstn (j - i) (skipn i content).

(** A list comprehension [[f(x) for x in l]]. *)
Fixpoint for_each {A B : Type} (f : A -> parsed B) (l : list A)
  : parsed (list B) :=
  match l with
  | [] => Parsed []
  | x :: rest => y <- f x ;; ys <- for_each f rest ;; Parsed (y :: ys)
  end.

Definition to_float `{Builtins} (s : string) : parsed pyfloat :=
  match py_float s with
  | Some x => Parsed x
  | None => Failed (FloatError s)
  end.

Definition to_int `{Builtins} (s : string) : parsed Z :=
  match py_int s with
  | Some n => Parsed n
  | None => Failed (IntError s)
  end.

(** [round(float(x))] *)
Definition to_rounded `{Builtins} (s : string) : parsed Z :=
  x <- to_float s ;;
  match py_round x with
  | Some n => Parsed n
  | None => Failed (RoundError s)
  end.

Module LabelDict.
(** The dictionary [label_dict], one field per key. *)
Record t `{Builtins} : Type := mk {
  class : string;
  truncated : pyfloat;
  occluded : Z;
  alpha : pyfloat;
  bbox : list Z;
  dimensions : list pyfloat;
  location : list pyfloat;
  rotation_y : pyfloat
}.
End LabelDict.

Definition convert_label_to_dict `{Builtins} (label : string)
  : parsed LabelDict.t :=
  let content := split " " (py_strip label) in
  class <- item content 0 ;;
  truncated <- (s <- item content 1 ;; to_float s) ;;
  occluded <- (s <- item content 2 ;; to_int s) ;;
  alpha <- (s <- item content 3 ;; to_float s) ;;
  bbox <- for_each to_rounded (slice content 4 8) ;;
  dimensions <- for_each to_float (slice content 8 11) ;;
  location <- for_each to_float (slice content 11 14) ;;
  rotation_y <- (s <- item content 14 ;; to_float s) ;;
  Parsed (LabelDict.mk _ class truncated occluded alpha bbox dimensions
                       location rotation_y).

(** ** [extract_patch_data] from the lines of the label file *)

(** [box = label_dict['bbox']] as [confine_box] and [pad_to_square] index
    it: [box[0]] to [box[3]], an [IndexError] when one of them is missing. *)
Definition box_of_list (l : list Z) : parsed Box :=
  match l with
  | b0 :: b1 :: b2 :: b3 :: _ => Parsed (mkBox b0 b1 b2 b3)
  | _ => Failed IndexError
  end.

(** Lines 91-93 for one line of [label_file.readlines()]. *)
Definition label_of_line `{Builtins} (line : string) : parsed Label :=
  label_dict <- convert_label_to_dict line ;;
  box <- box_of_list (LabelDict.bbox label_dict) ;;
  Parsed (mkLabel (LabelDict.class label_dict) box).

(** Lines 90-112 over the lines read: the events of the iterations made
    and, when the loop is left by an exception of
    [convert_label_to_dict], that exception.  Nothing in
    [extract_patch_data] catches it. *)
Fixpoint lines_loop `{Builtins} (shape0 shape1 : Z) (i : nat)
  (lines : list string) : list event * option label_exn :=
  match lines with
  | [] => ([], None)
  | line :: rest =>
      match label_of_line line with
      | Failed e => ([], Some e)
      | Parsed label =>
          let ev := label_step shape0 shape1 i label in
          if ends_loop ev then ([ev], None)
          else
            let (events, raised) := lines_loop shape0 shape1 (S i) rest in
            (ev :: events, raised)
      end
  end.

Definition extract_patch_lines `{Builtins} (shape0 shape1 : Z)
  (lines : list string) : list event * option label_exn :=
  lines_loop shape0 shape1 0 lines.

(** * Properties of [confine_box] *)

Section Clamp.

Variables ymin xmin ymax xmax : Z.

Lemma clamp_range lo hi v : lo <= hi -> lo <= Z.max lo (Z.min hi v) <= hi.
Proof. lia. Qed.

Lemma clamp_fixed lo hi v : lo <= v <= hi -> Z.max lo (Z.min hi v) = v.
Proof. lia. Qed.

Lemma clamp_monotone lo hi u v :
  u <= v -> Z.max lo (Z.min hi u) <= Z.max lo (Z.min hi v).
Proof. lia. Qed.

Lemma confine_box_fields box :
  confine_box box ymin xmin ymax xmax =
  mkBox (Z.max xmin (Z.min xmax (x_min box)))
        (Z.max ymin (Z.min ymax (y_min box)))
        (Z.max xmin (Z.min xmax (x_max box)))
        (Z.max ymin (Z.min ymax (y_max box))).
Proof. reflexivity. Qed.

(** C5. For bounds with [xmin <= xmax] and [ymin <= ymax] and any box
    whatsoever, [confine_box] yields a box (it has no failing path), each
    coordinate of which lies in the interval of its axis and is
    [max(lower, min(upper, value))] of the coordinate it replaces alone. *)
Theorem confine_box_within box :
  xmin <= xmax -> ymin <= ymax ->
  exists r,
    confine_box box ymin xmin ymax xmax = r /\
    (xmin <= x_min r <= xmax) /\ (ymin <= y_min r <= ymax) /\
    (xmin <= x_max r <= xmax) /\ (ymin <= y_max r <= ymax) /\
    x_min r = Z.max xmin (Z.min xmax (x_min box)) /\
    y_min r = Z.max ymin (Z.min ymax (y_min box)) /\
    x_max r = Z.max xmin (Z.min xmax (x_max box)) /\
    y_max r = Z.max ymin (Z.min ymax (y_max box)).
Proof.
  intros Hx Hy. eexists; split; [reflexivity |].
  rewrite confine_box_fields; cbn [x_min y_min x_max y_max].
  repeat split; try reflexivity; now apply clamp_range.
Qed.

(** C8. On a box whose four coordinates already lie within the bounds
    [confine_box] changes nothing; applying it a second time therefore
    changes nothing either. *)
Theorem confine_box_identity_within box :
  coords_within box ymin xmin ymax xmax ->
  confine_box box ymin xmin ymax xmax = box /\
  confine_box (confine_box box ymin xmin ymax xmax) ymin xmin ymax xmax
  = confine_box box ymin xmin ymax xmax.
Proof.
  intros (Hx0 & Hy0 & Hx1 & Hy1).
  assert (E : confine_box box ymin xmin ymax xmax = box).
  { rewrite confine_box_fields. destruct box as [x0 y0 x1 y1].
    cbn [x_min y_min x_max y_max] in *.
    now rewrite !clamp_fixed. }
  now rewrite !E.
Qed.

(** C10. [confine_box] keeps the order of the coordinates of each axis:
    [x_min <= x_max] on entry gives [x_min <= x_max] in the result, and
    likewise for [y].  (Nothing is required of the bounds for this.) *)
Theorem confine_box_preserves_order box :
  (x_min box <= x_max box ->
   x_min (confine_box box ymin xmin ymax xmax)
   <= x_max (confine_box box ymin xmin ymax xmax)) /\
  (y_min box <= y_max box ->
   y_min (confine_box box ymin xmin ymax xmax)
   <= y_max (confine_box box ymin xmin ymax xmax)).
Proof.
  rewrite confine_box_fields; cbn [x_min y_min x_max y_max].
  split; intro H; now apply clamp_monotone.
Qed.

End Clamp.

Lemma confine_box_within_witness :
  0 <= 1242 /\ 0 <= 375 /\
  exists r,
    confine_box (mkBox (-7) 380 1300 150) 0 0 375 1242 = r /\
    (0 <= x_min r <= 1242) /\ (0 <= y_min r <= 375) /\
    (0 <= x_max r <= 1242) /\ (0 <= y_max r <= 375) /\
    x_min r = Z.max 0 (Z.min 1242 (-7)) /\
    y_min r = Z.max 0 (Z.min 375 380) /\
    x_max r = Z.max 0 (Z.min 1242 1300) /\
    y_max r = Z.max 0 (Z.min 375 150).
Proof.
  split; [lia | split; [lia |]].
  apply (confine_box_within 0 0 375 1242 (mkBox (-7) 380 1300 150)); lia.
Defined.

Lemma confine_box_identity_within_witness :
  coords_within (mkBox 10 20 110 90) 0 0 375 1242 /\
  confine_box (mkBox 10 20 110 90) 0 0 375 1242 = mkBox 10 20 110 90.
Proof.
  assert (H : coords_within (mkBox 10 20 110 90) 0 0 375 1242)
    by (unfold coords_within; simpl; lia).
  split; [exact H |].
  exact (proj1 (confine_box_identity_within 0 0 375 1242 _ H)).
Defined.

Lemma confine_box_preserves_order_witness :
  x_min (confine_box (mkBox (-7) 20 1300 90) 0 0 375 1242)
  <= x_max (confine_box (mkBox (-7) 20 1300 90) 0 0 375 1242) /\
  y_min (confine_box (mkBox (-7) 20 1300 90) 0 0 375 1242)
  <= y_max (confine_box (mkBox (-7) 20 1300 90) 0 0 375 1242).
Proof.
  destruct (confine_box_preserves_order 0 0 375 1242 (mkBox (-7) 20 1300 90))
    as [Hx Hy].
  split; [apply Hx | apply Hy]; simpl; lia.
Defined.

(** * The binary64 value of [padding] *)

Section Rounding.

Lemma floor_half n : Qfloor (inject_Z n / 2) = n / 2.
Proof.
  unfold Qdiv, Qmult, Qinv, inject_Z, Qfloor; simpl.
  now rewrite Z.mul_1_r.
Qed.

Lemma ceil_half n : Qceiling (inject_Z n / 2) = (n + 1) / 2.
Proof.
  unfold Qceiling, Qdiv, Qmult, Qinv, inject_Z, Qopp, Qfloor; simpl.
  rewrite Z.mul_1_r.
  pose proof (Z.div_mod (- n) 2 ltac:(lia)).
  pose proof (Z.mod_pos_bound (- n) 2 ltac:(lia)).
  pose proof (Z.div_mod (n + 1) 2 ltac:(lia)).
  pose proof (Z.mod_pos_bound (n + 1) 2 ltac:(lia)).
  lia.
Qed.

(** An int of at most 53 significant bits is halved exactly. *)
Lemma int_true_divide_2_exact n :
  0 <= n <= 2 ^ 53 ->
  exists p,
    int_true_divide_2 n = Some p /\
    Qfloor p = n / 2 /\ Qceiling p = (n + 1) / 2.
Proof.
  intros [Hlo Hhi].
  assert (Hcases : n = 2 ^ 53 \/ n < 2 ^ 53) by lia.
  destruct Hcases as [-> | Hlt].
  - eexists. split; [vm_compute; reflexivity |]. split; reflexivity.
  - exists (inject_Z n / 2)%Q. split; [| split].
    + unfold int_true_divide_2.
      assert (Hlog : Z.log2 n <= 52).
      { assert (Hn : n = 0 \/ 0 < n) by lia.
        destruct Hn as [-> | Hpos]; [now cbn |].
        apply (Z.log2_lt_pow2 n 53 Hpos) in Hlt. lia. }
      destruct (Z.log2 n - 52 <=? 0) eqn:E; [reflexivity | lia].
    + apply floor_half.
    + apply ceil_half.
Qed.

(** Whatever its size, the quotient is not negative. *)
Lemma int_true_divide_2_nonneg n p :
  0 <= n -> int_true_divide_2 n = Some p ->
  0 <= Qfloor p /\ 0 <= Qceiling p.
Proof.
  intros Hn. unfold int_true_divide_2.
  destruct (Z.log2 n - 52 <=? 0) eqn:E.
  - intros [= <-]. rewrite floor_half, ceil_half.
    split; apply Z.div_pos; lia.
  - destruct (2 ^ 1024 <=? _) eqn:E'; [discriminate |].
    intros [= <-]. rewrite Qfloor_Z, Qceiling_Z.
    assert (0 <= round_half_even n (Z.log2 n - 52)).
    { unfold round_half_even.
      assert (0 <= n / 2 ^ (Z.log2 n - 52))
        by (apply Z.div_pos; [lia | apply Z.pow_pos_nonneg; lia]).
      destruct (_ <? _); [lia |].
      destruct (_ <? _); [lia |].
      destruct (Z.even _); lia. }
    assert (0 <= 2 ^ (Z.log2 n - 52 - 1)) by (apply Z.pow_nonneg; lia).
    split; apply Z.mul_nonneg_nonneg; assumption.
Qed.

Variables w h : Z.

(** For a difference of at most [2^53] the two roundings of [padding]
    share out the whole difference, the odd unit on the side of the
    ceiling. *)
Lemma padding_exact :
  Z.abs (w - h) <= 2 ^ 53 ->
  exists p,
    padding w h = Some p /\
    Qceiling p + Qfloor p = Z.abs (w - h) /\
    Qceiling p - Qfloor p = Z.abs (w - h) mod 2.
Proof.
  intros Hd. unfold padding.
  destruct (int_true_divide_2_exact (Z.abs (w - h)) ltac:(lia))
    as (p & Hp & Hf & Hc).
  exists p. split; [exact Hp |]. rewrite Hf, Hc.
  generalize (Z.abs (w - h)); intro d.
  pose proof (Z.div_mod d 2 ltac:(lia)).
  pose proof (Z.mod_pos_bound d 2 ltac:(lia)).
  pose proof (Z.div_mod (d + 1) 2 ltac:(lia)).
  pose proof (Z.mod_pos_bound (d + 1) 2 ltac:(lia)).
  lia.
Qed.

Lemma padding_nonneg p :
  padding w h = Some p -> 0 <= Qfloor p /\ 0 <= Qceiling p.
Proof. apply int_true_divide_2_nonneg. lia. Qed.

Lemma padding_sym : padding w h = padding h w.
Proof.
  unfold padding. replace (h - w) with (- (w - h)) by lia.
  now rewrite Z.abs_opp.
Qed.

Lemma padding_equal : w = h -> exists p, padding w h = Some p.
Proof.
  intros E. destruct padding_exact as (p & Hp & _); [lia |]. now exists p.
Qed.

End Rounding.

(** * Properties of [pad_to_square] *)

(** Case analysis over every test of [pad_box] and of the final check, the
    two roundings of [padding] standing as integers. *)
Ltac unfold_boxes :=
  cbv [out_of_bounds pad_box confine_box square width height
       inside coords_within longer_dimension shorter_axis_span infeasible
       set_x_min set_y_min set_x_max set_y_max
       x_min y_min x_max y_max] in *.

Ltac abstract_roundings :=
  repeat match goal with
         | |- context [Qceiling ?p] =>
             let c := fresh "c" in set (c := Qceiling p) in *; clearbody c
         | |- context [Qfloor ?p] =>
             let f := fresh "f" in set (f := Qfloor p) in *; clearbody f
         | _ : context [Qceiling ?p] |- _ =>
             let c := fresh "c" in set (c := Qceiling p) in *; clearbody c
         | _ : context [Qfloor ?p] |- _ =>
             let f := fresh "f" in set (f := Qfloor p) in *; clearbody f
         end.

Ltac split_tests :=
  repeat match goal with
         | |- context [if ?c then _ else _] =>
             destruct c eqn:?; unfold_boxes
         | H : context [if ?c then _ else _] |- _ =>
             destruct c eqn:?; unfold_boxes
         end.

Ltac pad_arith :=
  unfold_boxes; abstract_roundings; split_tests;
  try discriminate; try lia.

Section Pad.

Variables ymin xmin ymax xmax : Z.

Lemma out_of_bounds_false box :
  out_of_bounds box ymin xmin ymax xmax = false <->
  inside box ymin xmin ymax xmax.
Proof. unfold out_of_bounds, inside. lia. Qed.

(** The three ways out of [pad_to_square]. *)
Lemma pad_to_square_returns box b :
  pad_to_square box ymin xmin ymax xmax = Returns b <->
  exists p,
    padding (width box) (height box) = Some p /\
    b = pad_box box ymin xmin ymax xmax p /\ inside b ymin xmin ymax xmax.
Proof.
  unfold pad_to_square. fold (width box) (height box).
  destruct (padding (width box) (height box)) as [p |].
  - destruct (out_of_bounds _ _ _ _ _) eqn:E; split.
    + discriminate.
    + intros (p' & [= <-] & -> & Hin).
      apply out_of_bounds_false in Hin. congruence.
    + intros [= <-]. exists p.
      split; [reflexivity | split; [reflexivity |]].
      now apply out_of_bounds_false.
    + now intros (p' & [= <-] & -> & _).
  - split; [discriminate | now intros (p' & Hp & _)].
Qed.

Lemma pad_to_square_raises box tried original :
  pad_to_square box ymin xmin ymax xmax = Raises (ValueError tried original)
  <->
  exists p,
    padding (width box) (height box) = Some p /\
    tried = pad_box box ymin xmin ymax xmax p /\ original = box /\
    out_of_bounds tried ymin xmin ymax xmax = true.
Proof.
  unfold pad_to_square. fold (width box) (height box).
  destruct (padding (width box) (height box)) as [p |].
  - destruct (out_of_bounds _ _ _ _ _) eqn:E; split.
    + intros [= <- <-]. exists p. now repeat split.
    + now intros (p' & [= <-] & -> & -> & _).
    + discriminate.
    + intros (p' & [= <-] & -> & _ & Hout). congruence.
  - split; [discriminate | now intros (p' & Hp & _)].
Qed.

Lemma pad_to_square_overflow box :
  pad_to_square box ymin xmin ymax xmax = Raises OverflowError <->
  padding (width box) (height box) = None.
Proof.
  unfold pad_to_square. fold (width box) (height box).
  destruct (padding (width box) (height box)) as [p |].
  - destruct (out_of_bounds _ _ _ _ _); split; discriminate.
  - now split.
Qed.

(** Returning or raising, the list is left as [pad_box] made it, or as it
    was given when the division raised. *)
Lemma box_after_pad_to_square box :
  box_after box (pad_to_square box ymin xmin ymax xmax)
  = match padding (width box) (height box) with
    | Some p => pad_box box ymin xmin ymax xmax p
    | None => box
    end.
Proof.
  unfold pad_to_square. fold (width box) (height box).
  destruct (padding (width box) (height box)) as [p |]; [| reflexivity].
  now destruct (out_of_bounds _ _ _ _ _).
Qed.

(** With roundings that share out the difference, the updated box is
    square, whatever the tests do. *)
Lemma pad_box_square box p :
  Qceiling p + Qfloor p = Z.abs (width box - height box) ->
  square (pad_box box ymin xmin ymax xmax p).
Proof. destruct box as [x0 y0 x1 y1]. intros Hsum. pad_arith. Qed.

(** Its side is then the larger of the two dimensions it started from. *)
Lemma pad_box_side box p :
  Qceiling p + Qfloor p = Z.abs (width box - height box) ->
  width (pad_box box ymin xmin ymax xmax p) = longer_dimension box.
Proof. destruct box as [x0 y0 x1 y1]. intros Hsum. pad_arith. Qed.

Lemma pad_box_height box p :
  Qceiling p + Qfloor p = Z.abs (width box - height box) ->
  height (pad_box box ymin xmin ymax xmax p) = longer_dimension box.
Proof.
  intros Hsum. rewrite <- (pad_box_side box p Hsum). symmetry.
  now apply pad_box_square.
Qed.

(** The coordinates of the longer axis are never assigned to. *)
Lemma pad_box_frame box p :
  (width box > height box ->
   x_min (pad_box box ymin xmin ymax xmax p) = x_min box /\
   x_max (pad_box box ymin xmin ymax xmax p) = x_max box) /\
  (height box > width box ->
   y_min (pad_box box ymin xmin ymax xmax p) = y_min box /\
   y_max (pad_box box ymin xmin ymax xmax p) = y_max box) /\
  (width box = height box -> pad_box box ymin xmin ymax xmax p = box).
Proof.
  destruct box as [x0 y0 x1 y1].
  repeat split; intros; pad_arith; f_equal; lia.
Qed.

(** With the box already inside and such roundings, the test of line 207
    fires exactly when the side to reach is larger than the room along the
    padded axis. *)
Lemma pad_box_out_of_bounds_iff box p :
  inside box ymin xmin ymax xmax ->
  Qceiling p + Qfloor p = Z.abs (width box - height box) ->
  out_of_bounds (pad_box box ymin xmin ymax xmax p) ymin xmin ymax xmax = true
  <-> infeasible box ymin xmin ymax xmax.
Proof.
  destruct box as [x0 y0 x1 y1]. intros Hin Hsum.
  split; intros H; pad_arith.
Qed.

(** A box inside the bounds is contained in what [pad_box] makes of it,
    as soon as that is inside the bounds too; this needs no more of the
    roundings than their sign. *)
Lemma pad_box_contains box p :
  0 <= Qfloor p -> 0 <= Qceiling p ->
  inside box ymin xmin ymax xmax ->
  inside (pad_box box ymin xmin ymax xmax p) ymin xmin ymax xmax ->
  x_min (pad_box box ymin xmin ymax xmax p) <= x_min box /\
  x_max box <= x_max (pad_box box ymin xmin ymax xmax p) /\
  y_min (pad_box box ymin xmin ymax xmax p) <= y_min box /\
  y_max box <= y_max (pad_box box ymin xmin ymax xmax p).
Proof.
  intros Hf Hc Hbox Hin. destruct box as [x0 y0 x1 y1]. pad_arith.
Qed.

(** For a box with ordered coordinates the four comparisons of line 207
    decide whether every coordinate is within the interval of its axis. *)
Lemma inside_coords_within box :
  x_min box <= x_max box -> y_min box <= y_max box ->
  inside box ymin xmin ymax xmax <-> coords_within box ymin xmin ymax xmax.
Proof. unfold inside, coords_within. lia. Qed.

End Pad.

Section PadClaims.

Variables ymin xmin ymax xmax : Z.


(** C3, within the range where line 188 is exact.  For a box whose width
    and height differ by at most [2^53], whenever [pad_to_square] returns,
    the side of the square it returns, along [x] and along [y], is the
    longer of the width and the height of the box it was given. *)
Theorem pad_to_square_side_longer box b :
  Z.abs (width box - height box) <= 2 ^ 53 ->
  pad_to_square box ymin xmin ymax xmax = Returns b ->
  x_max b - x_min b = Z.max (width box) (height box) /\
  y_max b - y_min b = Z.max (width box) (height box).
Proof.
  intros Hd H. apply pad_to_square_returns in H as (p & Hp & -> & _).
  destruct (padding_exact _ _ Hd) as (p' & Hp' & Hsum & _).
  rewrite Hp in Hp'. injection Hp' as <-.
  split; [now apply pad_box_side | now apply pad_box_height].
Qed.

(** C9. [pad_to_square] never changes the coordinates of the longer axis,
    whether the edge corrections fire or not and whether it returns or
    raises: with [width > height] the list still holds the [x_min] and
    [x_max] it was given, with [height > width] the [y_min] and [y_max],
    and with [width = height] all four coordinates. *)
Theorem pad_to_square_longer_axis_unchanged box :
  (width box > height box ->
   x_min (box_after box (pad_to_square box ymin xmin ymax xmax))
   = x_min box /\
   x_max (box_after box (pad_to_square box ymin xmin ymax xmax))
   = x_max box) /\
  (height box > width box ->
   y_min (box_after box (pad_to_square box ymin xmin ymax xmax))
   = y_min box /\
   y_max (box_after box (pad_to_square box ymin xmin ymax xmax))
   = y_max box) /\
  (width box = height box ->
   box_after box (pad_to_square box ymin xmin ymax xmax) = box).
Proof.
  rewrite box_after_pad_to_square.
  destruct (padding (width box) (height box)) as [p |];
    [apply pad_box_frame | now repeat split].
Qed.

(** C4, within the range where line 188 is exact.  When width and height
    differ by at most [2^53], [padding] has a value, its ceiling and its
    floor add up to the whole difference, and the ceiling takes the odd
    unit.  When [width > height] and neither edge correction fires,
    [pad_to_square] leaves [y_min - ceil(padding)] and
    [y_max + floor(padding)] in the list, so that the height has grown by
    exactly [width - height], and leaves [x_min] and [x_max] as they were;
    symmetrically along [x] when [height > width]. *)
Theorem pad_to_square_split box :
  Z.abs (width box - height box) <= 2 ^ 53 ->
  let after := box_after box (pad_to_square box ymin xmin ymax xmax) in
  exists p,
    padding (width box) (height box) = Some p /\
    Qceiling p + Qfloor p = Z.abs (width box - height box) /\
    Qceiling p - Qfloor p = Z.abs (width box - height box) mod 2 /\
    (width box > height box ->
     ymin <= y_min box - Qceiling p -> y_max box + Qfloor p <= ymax ->
     after = mkBox (x_min box) (y_min box - Qceiling p)
                   (x_max box) (y_max box + Qfloor p) /\
     height after - height box = width box - height box) /\
    (height box > width box ->
     xmin <= x_min box - Qceiling p -> x_max box + Qfloor p <= xmax ->
     after = mkBox (x_min box - Qceiling p) (y_min box)
                   (x_max box + Qfloor p) (y_max box) /\
     width after - width box = height box - width box).
Proof.
  intros Hd after. subst after. rewrite box_after_pad_to_square.
  destruct (padding_exact _ _ Hd) as (p & Hp & Hsum & Hodd).
  exists p. rewrite Hp.
  split; [reflexivity | split; [exact Hsum | split; [exact Hodd |]]].
  clear Hp Hodd. destruct box as [x0 y0 x1 y1].
  split; intros Hlong Hlo Hhi; pad_arith; split; try lia; f_equal; lia.
Qed.

(** C7. A box with [width = height] is left as it is by [pad_to_square],
    and the final test is applied to it all the same: inside the bounds it
    is returned unchanged, as is [(10, 10, 20, 20)] for the bounds
    [(0, 0, 100, 100)]; with [x_min < xmin], [x_max > xmax],
    [y_min < ymin] or [y_max > ymax] the [ValueError] is raised, which for
    a box with [x_min <= x_max] and [y_min <= y_max] is to say: with any
    coordinate outside the interval of its axis. *)
Theorem pad_to_square_already_square box :
  width box = height box ->
  box_after box (pad_to_square box ymin xmin ymax xmax) = box /\
  (inside box ymin xmin ymax xmax ->
   pad_to_square box ymin xmin ymax xmax = Returns box) /\
  (~ inside box ymin xmin ymax xmax ->
   pad_to_square box ymin xmin ymax xmax = Raises (ValueError box box)) /\
  (x_min box <= x_max box -> y_min box <= y_max box ->
   ~ coords_within box ymin xmin ymax xmax ->
   pad_to_square box ymin xmin ymax xmax = Raises (ValueError box box)) /\
  pad_to_square (mkBox 10 10 20 20) 0 0 100 100
  = Returns (mkBox 10 10 20 20).
Proof.
  intros Hsq.
  destruct (padding_equal _ _ Hsq) as [p Hp].
  pose proof (pad_box_frame ymin xmin ymax xmax box p) as (_ & _ & Hsame).
  specialize (Hsame Hsq).
  assert (Hraise : ~ inside box ymin xmin ymax xmax ->
                   pad_to_square box ymin xmin ymax xmax
                   = Raises (ValueError box box)).
  { intros Hout. apply pad_to_square_raises. exists p. rewrite Hsame.
    repeat split; [exact Hp |].
    destruct (out_of_bounds box ymin xmin ymax xmax) eqn:E;
      [reflexivity |].
    now apply out_of_bounds_false in E. }
  split; [rewrite box_after_pad_to_square; now rewrite Hp |].
  split; [| split; [exact Hraise | split; [| reflexivity]]].
  - intros Hin. apply pad_to_square_returns. exists p.
    rewrite Hsame. split; [exact Hp | split; [reflexivity | exact Hin]].
  - intros Hx Hy Hout. apply Hraise. intros Hin. apply Hout.
    now apply inside_coords_within.
Qed.

(** C2, within the range where line 188 is exact.  For a box contained in
    the bounds whose width and height differ by at most [2^53],
    [pad_to_square] raises exactly when the longer dimension of the box
    exceeds the span of the bounds along the axis of the shorter
    dimension; so every such box makes it raise.  The exception is the
    [ValueError] of the final test and comes from that test only: it
    carries the box as padded and corrected, which fails the test,
    together with the box given. *)
Theorem pad_to_square_raises_iff_infeasible box :
  inside box ymin xmin ymax xmax ->
  Z.abs (width box - height box) <= 2 ^ 53 ->
  ((exists e, pad_to_square box ymin xmin ymax xmax = Raises e) <->
   infeasible box ymin xmin ymax xmax) /\
  (infeasible box ymin xmin ymax xmax ->
   exists p,
     padding (width box) (height box) = Some p /\
     pad_to_square box ymin xmin ymax xmax
     = Raises (ValueError (pad_box box ymin xmin ymax xmax p) box)) /\
  (forall e,
      pad_to_square box ymin xmin ymax xmax = Raises e ->
      exists p,
        padding (width box) (height box) = Some p /\
        e = ValueError (pad_box box ymin xmin ymax xmax p) box /\
        out_of_bounds (pad_box box ymin xmin ymax xmax p)
                      ymin xmin ymax xmax = true).
Proof.
  intros Hin Hd.
  destruct (padding_exact _ _ Hd) as (p & Hp & Hsum & _).
  pose proof (pad_box_out_of_bounds_iff ymin xmin ymax xmax box p Hin Hsum)
    as Hiff.
  assert (Hraise : infeasible box ymin xmin ymax xmax ->
                   pad_to_square box ymin xmin ymax xmax
                   = Raises (ValueError (pad_box box ymin xmin ymax xmax p)
                                        box)).
  { intros Hinf. apply pad_to_square_raises. exists p.
    repeat split; [exact Hp | now apply Hiff]. }
  assert (Hvalue : forall e,
             pad_to_square box ymin xmin ymax xmax = Raises e ->
             e = ValueError (pad_box box ymin xmin ymax xmax p) box /\
             out_of_bounds (pad_box box ymin xmin ymax xmax p)
                           ymin xmin ymax xmax = true).
  { intros [tried original |] He.
    - apply pad_to_square_raises in He as (p' & Hp' & -> & -> & Hout).
      rewrite Hp in Hp'. injection Hp' as <-. now split.
    - apply pad_to_square_overflow in He. congruence. }
  split; [split | split].
  - intros [e He]. apply Hvalue in He as [_ Hout]. now apply Hiff.
  - intros Hinf. eexists. now apply Hraise.
  - intros Hinf. exists p. split; [exact Hp | now apply Hraise].
  - intros e He. exists p. split; [exact Hp | now apply Hvalue].
Qed.

End PadClaims.


(** C2, as stated for every box contained in the bounds, fails: a box of
    width [2^53 + 1] and height 0 inside bounds of height [2^53] has a
    longer dimension that exceeds the span of the other axis, and is
    returned, not square, instead of raising. *)
Lemma pad_to_square_infeasible_returned :
  inside (mkBox 0 0 (2 ^ 53 + 1) 0) 0 0 (2 ^ 53) (2 ^ 53 + 1) /\
  infeasible (mkBox 0 0 (2 ^ 53 + 1) 0) 0 0 (2 ^ 53) (2 ^ 53 + 1) /\
  pad_to_square (mkBox 0 0 (2 ^ 53 + 1) 0) 0 0 (2 ^ 53) (2 ^ 53 + 1)
  = Returns (mkBox 0 0 (2 ^ 53 + 1) (2 ^ 53)).
Proof.
  split; [unfold inside; simpl; lia |].
  split; [vm_compute; reflexivity | vm_compute; reflexivity].
Qed.

(** C3, as stated for every ordered box contained in the bounds, fails: for
    a width of [2^53 + 1] and a height of 0 the box returned has a height
    of [2^53], not the longer dimension. *)
Lemma pad_to_square_side_not_longer :
  coords_within (mkBox 0 0 (2 ^ 53 + 1) 0) 0 0 (2 ^ 60) (2 ^ 60) /\
  pad_to_square (mkBox 0 0 (2 ^ 53 + 1) 0) 0 0 (2 ^ 60) (2 ^ 60)
  = Returns (mkBox 0 0 (2 ^ 53 + 1) (2 ^ 53)) /\
  height (mkBox 0 0 (2 ^ 53 + 1) (2 ^ 53))
  <> Z.max (width (mkBox 0 0 (2 ^ 53 + 1) 0))
           (height (mkBox 0 0 (2 ^ 53 + 1) 0)).
Proof.
  split; [unfold coords_within; simpl; lia |].
  split; [vm_compute; reflexivity | vm_compute; discriminate].
Qed.

(** C4, as stated for every width and height, fails: for a difference of
    [2^53 + 1] the ceiling and the floor of [padding] are both [2^52] and
    add up to one unit less than the difference. *)
Lemma padding_sum_short :
  exists p,
    padding (2 ^ 53 + 1) 0 = Some p /\
    Qceiling p = 2 ^ 52 /\ Qfloor p = 2 ^ 52 /\
    Qceiling p + Qfloor p <> (2 ^ 53 + 1) - 0.
Proof.
  eexists. split; [vm_compute; reflexivity |].
  split; [reflexivity | split; [reflexivity | vm_compute; discriminate]].
Qed.


Lemma pad_to_square_side_longer_witness :
  pad_to_square (mkBox 40 10 50 31) 0 0 100 100 = Returns (mkBox 34 10 55 31) /\
  (55 - 34 = Z.max 10 21 /\ 31 - 10 = Z.max 10 21).
Proof.
  split; [reflexivity |].
  apply (pad_to_square_side_longer 0 0 100 100
           (mkBox 40 10 50 31) (mkBox 34 10 55 31));
    [vm_compute; discriminate | reflexivity].
Defined.

Lemma pad_to_square_longer_axis_unchanged_witness :
  x_min (box_after (mkBox 0 0 100 5)
                   (pad_to_square (mkBox 0 0 100 5) 0 0 10 100)) = 0 /\
  x_max (box_after (mkBox 0 0 100 5)
                   (pad_to_square (mkBox 0 0 100 5) 0 0 10 100)) = 100.
Proof.
  apply (pad_to_square_longer_axis_unchanged 0 0 10 100 (mkBox 0 0 100 5)).
  unfold width, height; simpl; lia.
Defined.

Lemma pad_to_square_split_witness :
  exists p,
    padding (width (mkBox 40 10 50 31)) (height (mkBox 40 10 50 31))
    = Some p /\
    Qceiling p + Qfloor p = 11 /\ Qceiling p - Qfloor p = 1.
Proof.
  destruct (pad_to_square_split 0 0 100 100 (mkBox 40 10 50 31))
    as (p & Hp & Hsum & Hodd & _); [vm_compute; discriminate |].
  exists p. split; [exact Hp | split; [exact Hsum | exact Hodd]].
Defined.

Lemma pad_to_square_already_square_witness :
  width (mkBox 10 10 20 20) = height (mkBox 10 10 20 20) /\
  box_after (mkBox 10 10 20 20)
            (pad_to_square (mkBox 10 10 20 20) 0 0 100 100)
  = mkBox 10 10 20 20.
Proof.
  split; [reflexivity |].
  apply (pad_to_square_already_square 0 0 100 100 (mkBox 10 10 20 20)).
  reflexivity.
Defined.

Lemma pad_to_square_raises_iff_infeasible_witness :
  inside (mkBox 0 0 100 5) 0 0 10 100 /\
  exists e, pad_to_square (mkBox 0 0 100 5) 0 0 10 100 = Raises e.
Proof.
  assert (Hin : inside (mkBox 0 0 100 5) 0 0 10 100)
    by (unfold inside; simpl; lia).
  split; [exact Hin |].
  apply (pad_to_square_raises_iff_infeasible 0 0 10 100 (mkBox 0 0 100 5) Hin);
    [vm_compute; discriminate |].
  unfold infeasible, longer_dimension, shorter_axis_span, width, height.
  simpl; lia.
Defined.

(** * The per-label loop *)

Section Loop.

Variables shape0 shape1 : Z.

(** What the iteration of a label did, read back from its event. *)
Lemma label_step_write_inv i label j b class_label :
  label_step shape0 shape1 i label = WritePatch j b class_label ->
  j = i /\ class_label = class label /\
  pad_to_square (confine_box (bbox label) 0 0 shape0 shape1)
                0 0 shape0 shape1 = Returns b /\
  width b <> 0 /\ height b <> 0 /\ patch_empty shape0 shape1 b = false.
Proof.
  unfold label_step, width, height.
  destruct (pad_to_square _ _ _ _ _) as [padded | [t o |]];
    [| discriminate | discriminate].
  destruct (_ || _) eqn:E; [discriminate |].
  destruct (patch_empty _ _ _) eqn:E'; [discriminate |].
  intros [= -> -> ->]. repeat split; solve [lia | exact E' | reflexivity].
Qed.

Lemma label_step_cannot_fit_inv i label e :
  label_step shape0 shape1 i label = PrintCannotFit e ->
  exists tried original,
    e = ValueError tried original /\
    pad_to_square (confine_box (bbox label) 0 0 shape0 shape1)
                  0 0 shape0 shape1 = Raises (ValueError tried original).
Proof.
  unfold label_step.
  destruct (pad_to_square _ _ _ _ _) as [padded | [t o |]].
  - destruct (_ || _); [discriminate |].
    destruct (patch_empty _ _ _); discriminate.
  - intros [= <-]. now exists t, o.
  - discriminate.
Qed.

Lemma label_step_overflow_inv i label :
  label_step shape0 shape1 i label = RaiseOverflowError ->
  pad_to_square (confine_box (bbox label) 0 0 shape0 shape1)
                0 0 shape0 shape1 = Raises OverflowError.
Proof.
  unfold label_step.
  destruct (pad_to_square _ _ _ _ _) as [padded | [t o |]].
  - destruct (_ || _); [discriminate |].
    destruct (patch_empty _ _ _); discriminate.
  - discriminate.
  - reflexivity.
Qed.

(** Every event of the loop is the event of one label, at its position. *)
Lemma label_loop_in labels : forall k ev,
  In ev (label_loop shape0 shape1 k labels) ->
  exists j label,
    nth_error labels j = Some label /\
    label_step shape0 shape1 (k + j) label = ev.
Proof.
  induction labels as [| l rest IH]; intros k ev Hin; simpl in Hin;
    [contradiction |].
  assert (Hhead : label_step shape0 shape1 k l = ev ->
                  exists j label,
                    nth_error (l :: rest) j = Some label /\
                    label_step shape0 shape1 (k + j) label = ev).
  { intros Hstep. exists 0%nat, l. now rewrite Nat.add_0_r. }
  destruct (ends_loop _).
  - destruct Hin as [Hstep | []]. now apply Hhead.
  - destruct Hin as [Hstep | Hin]; [now apply Hhead |].
    destruct (IH _ _ Hin) as (j & label & Hnth & Hstep).
    exists (S j), label. split; [exact Hnth |].
    now replace (k + S j)%nat with (S k + j)%nat by lia.
Qed.

Lemma extract_patch_data_write labels i b class_label :
  In (WritePatch i b class_label) (extract_patch_data shape0 shape1 labels) ->
  exists label,
    nth_error labels i = Some label /\
    class_label = class label /\
    pad_to_square (confine_box (bbox label) 0 0 shape0 shape1)
                  0 0 shape0 shape1 = Returns b /\
    width b <> 0.
Proof.
  intros Hin. unfold extract_patch_data in Hin.
  apply label_loop_in in Hin as (j & label & Hnth & Hstep).
  apply label_step_write_inv in Hstep as (Hi & Hc & Hpad & Hw & _).
  simpl in Hi. subst i. now exists label.
Qed.

(** With a non-negative image shape the clamped box is inside the image. *)
Lemma confine_box_inside box :
  0 <= shape0 -> 0 <= shape1 ->
  inside (confine_box box 0 0 shape0 shape1) 0 0 shape0 shape1.
Proof.
  intros H0 H1. rewrite confine_box_fields.
  unfold inside; cbn [x_min y_min x_max y_max]. lia.
Qed.

(** The dimensions of a clamped box are at most those of the image. *)
Lemma confine_box_dimensions box :
  0 <= shape0 -> 0 <= shape1 ->
  width (confine_box box 0 0 shape0 shape1) <= shape1 /\
  height (confine_box box 0 0 shape0 shape1) <= shape0.
Proof.
  intros H0 H1. rewrite confine_box_fields.
  unfold width, height; cbn [x_min y_min x_max y_max]. lia.
Qed.

(** In an image of at most [2^52] rows and columns the dimensions of a
    clamped box differ by at most [2^53]: line 188 is exact. *)
Lemma confine_box_magnitude box :
  shape0 <= 2 ^ 52 -> shape1 <= 2 ^ 52 ->
  Z.abs (width (confine_box box 0 0 shape0 shape1)
         - height (confine_box box 0 0 shape0 shape1)) <= 2 ^ 53.
Proof.
  intros H0 H1. rewrite confine_box_fields.
  unfold width, height; cbn [x_min y_min x_max y_max].
  change (2 ^ 53) with (2 * 2 ^ 52). lia.
Qed.

(** What a clamped box gets from [pad_to_square] in such an image. *)
Lemma pad_clamped box :
  shape0 <= 2 ^ 52 -> shape1 <= 2 ^ 52 ->
  exists p,
    padding (width (confine_box box 0 0 shape0 shape1))
            (height (confine_box box 0 0 shape0 shape1)) = Some p /\
    Qceiling p + Qfloor p
    = Z.abs (width (confine_box box 0 0 shape0 shape1)
             - height (confine_box box 0 0 shape0 shape1)).
Proof.
  intros H0 H1.
  destruct (padding_exact _ _ (confine_box_magnitude box H0 H1))
    as (p & Hp & Hsum & _).
  now exists p.
Qed.

(** The crop of a padded clamped box: it has pixels exactly when the side
    of the box is positive. *)
Lemma patch_empty_padded box p :
  0 <= shape0 -> 0 <= shape1 ->
  Qceiling p + Qfloor p
  = Z.abs (width (confine_box box 0 0 shape0 shape1)
           - height (confine_box box 0 0 shape0 shape1)) ->
  inside (pad_box (confine_box box 0 0 shape0 shape1) 0 0 shape0 shape1 p)
         0 0 shape0 shape1 ->
  patch_empty shape0 shape1
    (pad_box (confine_box box 0 0 shape0 shape1) 0 0 shape0 shape1 p)
  = (longer_dimension (confine_box box 0 0 shape0 shape1) <=? 0).
Proof.
  intros H0 H1. destruct box as [x0 y0 x1 y1].
  rewrite confine_box_fields; cbn [x_min y_min x_max y_max].
  set (a0 := Z.max 0 (Z.min shape1 x0)).
  set (b0 := Z.max 0 (Z.min shape0 y0)).
  set (a1 := Z.max 0 (Z.min shape1 x1)).
  set (b1 := Z.max 0 (Z.min shape0 y1)).
  assert (0 <= a0 <= shape1 /\ 0 <= a1 <= shape1 /\
          0 <= b0 <= shape0 /\ 0 <= b1 <= shape0) by lia.
  clearbody a0 b0 a1 b1. intros Hsum Hin.
  unfold patch_empty, slice_len.
  unfold_boxes. abstract_roundings. split_tests; lia.
Qed.

End Loop.

(** C6.  The test of line 102 is written for a box with one extent of zero
    but sits after [pad_to_square]: a label box lying to the left of a
    100 x 100 image is clamped to zero width, padded back to a 20 x 20
    square and written out as a patch, instead of being skipped. *)
Lemma degenerate_clamped_box_emitted :
  confine_box (mkBox (-20) 10 (-5) 30) 0 0 100 100 = mkBox 0 10 0 30 /\
  zero_area (confine_box (mkBox (-20) 10 (-5) 30) 0 0 100 100) /\
  extract_patch_data 100 100 [mkLabel "Car" (mkBox (-20) 10 (-5) 30)]
  = [WritePatch 0 (mkBox 0 10 20 30) "Car"].
Proof.
  split; [reflexivity | split; [now left | reflexivity]].
Qed.

(** * Further properties of [confine_box] *)

Section ClampMore.

Variables ymin xmin ymax xmax : Z.

(** Clamping twice is clamping once, whatever the box and the bounds. *)
Theorem confine_box_idempotent box :
  confine_box (confine_box box ymin xmin ymax xmax) ymin xmin ymax xmax
  = confine_box box ymin xmin ymax xmax.
Proof.
  rewrite !confine_box_fields; cbn [x_min y_min x_max y_max].
  f_equal; lia.
Qed.

(** The pixels of the clamped box are the pixels of the box that lie
    within the bounds, for every box and all bounds. *)
Theorem confine_box_pixels box px py :
  covers (confine_box box ymin xmin ymax xmax) px py <->
  covers box px py /\ covers (mkBox xmin ymin xmax ymax) px py.
Proof.
  rewrite confine_box_fields. unfold covers; cbn [x_min y_min x_max y_max].
  lia.
Qed.

(** Clamping never enlarges a box with ordered coordinates, and never turns
    it inside out. *)
Theorem confine_box_shrinks box :
  (x_min box <= x_max box ->
   0 <= width (confine_box box ymin xmin ymax xmax) <= width box) /\
  (y_min box <= y_max box ->
   0 <= height (confine_box box ymin xmin ymax xmax) <= height box).
Proof.
  rewrite confine_box_fields. unfold width, height;
    cbn [x_min y_min x_max y_max].
  lia.
Qed.

(** A box with ordered coordinates that lies beyond one side of ordered
    bounds along an axis is flattened onto that side: both coordinates of
    the axis become the bound. *)
Theorem confine_box_flattens box :
  (xmin <= xmax -> x_min box <= x_max box ->
   (x_max box <= xmin ->
    x_min (confine_box box ymin xmin ymax xmax) = xmin /\
    x_max (confine_box box ymin xmin ymax xmax) = xmin) /\
   (xmax <= x_min box ->
    x_min (confine_box box ymin xmin ymax xmax) = xmax /\
    x_max (confine_box box ymin xmin ymax xmax) = xmax)) /\
  (ymin <= ymax -> y_min box <= y_max box ->
   (y_max box <= ymin ->
    y_min (confine_box box ymin xmin ymax xmax) = ymin /\
    y_max (confine_box box ymin xmin ymax xmax) = ymin) /\
   (ymax <= y_min box ->
    y_min (confine_box box ymin xmin ymax xmax) = ymax /\
    y_max (confine_box box ymin xmin ymax xmax) = ymax)).
Proof.
  rewrite confine_box_fields; cbn [x_min y_min x_max y_max]. lia.
Qed.

End ClampMore.

Lemma confine_box_shrinks_witness :
  0 <= width (confine_box (mkBox (-7) 20 1300 90) 0 0 375 1242)
  <= width (mkBox (-7) 20 1300 90).
Proof.
  apply (confine_box_shrinks 0 0 375 1242 (mkBox (-7) 20 1300 90)).
  simpl; lia.
Defined.

Lemma confine_box_flattens_witness :
  x_min (confine_box (mkBox (-20) 10 (-5) 30) 0 0 375 1242) = 0 /\
  x_max (confine_box (mkBox (-20) 10 (-5) 30) 0 0 375 1242) = 0.
Proof.
  apply (confine_box_flattens 0 0 375 1242 (mkBox (-20) 10 (-5) 30));
    simpl; lia.
Defined.


(** * Further properties of [pad_to_square] *)

Section PadMore.

Variables ymin xmin ymax xmax : Z.

(** For any box whose width and height differ by at most [2^53], inside
    the bounds or not, [pad_to_square] raises exactly when the longer
    axis, which it leaves alone, already sticks out of the bounds, or the
    longer dimension exceeds the span of the bounds along the other axis;
    a box with equal width and height raises exactly when it is not
    inside. *)
Theorem pad_to_square_raises_iff box :
  Z.abs (width box - height box) <= 2 ^ 53 ->
  (exists e, pad_to_square box ymin xmin ymax xmax = Raises e) <->
  (width box > height box /\
   (x_min box < xmin \/ x_max box > xmax \/ width box > ymax - ymin)) \/
  (height box > width box /\
   (y_min box < ymin \/ y_max box > ymax \/ height box > xmax - xmin)) \/
  (width box = height box /\ ~ inside box ymin xmin ymax xmax).
Proof.
  intros Hd. destruct (padding_exact _ _ Hd) as (p & Hp & Hsum & _).
  split.
  - intros [[tried original |] He].
    + apply pad_to_square_raises in He as (p' & Hp' & -> & _ & He).
      rewrite Hp in Hp'. injection Hp' as <-. clear Hp.
      destruct box as [x0 y0 x1 y1]. pad_arith.
    + apply pad_to_square_overflow in He. congruence.
  - intros H. eexists. apply pad_to_square_raises. exists p.
    split; [exact Hp | split; [reflexivity | split; [reflexivity |]]].
    clear Hp. destruct box as [x0 y0 x1 y1]. pad_arith.
Qed.

(** When [pad_to_square] returns for a box whose width and height differ
    by at most [2^53], the padded axis is the grown interval moved by the
    least amount that brings it within the bounds: its lower end is
    [min - ceil(padding)] clamped to [[lower, upper - side]]. *)
Theorem pad_to_square_closed_form box b :
  Z.abs (width box - height box) <= 2 ^ 53 ->
  pad_to_square box ymin xmin ymax xmax = Returns b ->
  exists p,
    padding (width box) (height box) = Some p /\
    (width box > height box ->
     y_min b
     = Z.max ymin (Z.min (ymax - width box) (y_min box - Qceiling p)) /\
     y_max b = y_min b + width box) /\
    (height box > width box ->
     x_min b
     = Z.max xmin (Z.min (xmax - height box) (x_min box - Qceiling p)) /\
     x_max b = x_min b + height box).
Proof.
  intros Hd H. apply pad_to_square_returns in H as (p & Hp & -> & Hin).
  destruct (padding_exact _ _ Hd) as (p' & Hp' & Hsum & _).
  rewrite Hp in Hp'. injection Hp' as <-.
  exists p. split; [exact Hp |]. clear Hp.
  destruct box as [x0 y0 x1 y1]. split; intros Hlong; pad_arith.
Qed.

(** A box inside the bounds is contained in the square returned for it. *)
Theorem pad_to_square_contains_input box b :
  inside box ymin xmin ymax xmax ->
  pad_to_square box ymin xmin ymax xmax = Returns b ->
  x_min b <= x_min box /\ x_max box <= x_max b /\
  y_min b <= y_min box /\ y_max box <= y_max b.
Proof.
  intros Hbox H. apply pad_to_square_returns in H as (p & Hp & -> & Hin).
  apply padding_nonneg in Hp as [Hf Hc].
  now apply pad_box_contains.
Qed.

(** A box returned by [pad_to_square], for a box whose width and height
    differ by at most [2^53], is returned unchanged when it is padded
    again. *)
Theorem pad_to_square_idempotent box b :
  Z.abs (width box - height box) <= 2 ^ 53 ->
  pad_to_square box ymin xmin ymax xmax = Returns b ->
  pad_to_square b ymin xmin ymax xmax = Returns b.
Proof.
  intros Hd H. apply pad_to_square_returns in H as (p & Hp & -> & Hin).
  destruct (padding_exact _ _ Hd) as (p' & Hp' & Hsum & _).
  rewrite Hp in Hp'. injection Hp' as <-.
  pose proof (pad_box_square ymin xmin ymax xmax box p Hsum) as Hsq.
  destruct (padding_equal _ _ Hsq) as [q Hq].
  apply pad_to_square_returns. exists q.
  split; [exact Hq | split; [| exact Hin]].
  symmetry. now apply pad_box_frame.
Qed.

(** When the longer dimension, at most [2^53] more than the shorter one,
    exceeds the span of the other axis, the second correction has the last
    word: the list is left flush with the upper bound and reaching below
    the lower one, and that is the box the [ValueError] reports. *)
Theorem pad_to_square_failed_attempt box :
  Z.abs (width box - height box) <= 2 ^ 53 ->
  (width box > height box -> width box > ymax - ymin ->
   y_max (box_after box (pad_to_square box ymin xmin ymax xmax)) = ymax /\
   y_min (box_after box (pad_to_square box ymin xmin ymax xmax))
   = ymax - width box /\
   y_min (box_after box (pad_to_square box ymin xmin ymax xmax)) < ymin) /\
  (height box > width box -> height box > xmax - xmin ->
   x_max (box_after box (pad_to_square box ymin xmin ymax xmax)) = xmax /\
   x_min (box_after box (pad_to_square box ymin xmin ymax xmax))
   = xmax - height box /\
   x_min (box_after box (pad_to_square box ymin xmin ymax xmax)) < xmin).
Proof.
  intros Hd. rewrite box_after_pad_to_square.
  destruct (padding_exact _ _ Hd) as (p & Hp & Hsum & _).
  rewrite Hp. clear Hp.
  destruct box as [x0 y0 x1 y1]. split; intros Hlong Hspan; pad_arith.
Qed.

(** The two branches of [pad_to_square] mirror each other: exchanging the
    axes of the box and of the bounds exchanges the axes of the result. *)
Theorem pad_to_square_transpose box :
  pad_to_square (transpose box) xmin ymin xmax ymax
  = match pad_to_square box ymin xmin ymax xmax with
    | Returns b => Returns (transpose b)
    | Raises (ValueError tried original) =>
        Raises (ValueError (transpose tried) (transpose original))
    | Raises OverflowError => Raises OverflowError
    end.
Proof.
  destruct box as [x0 y0 x1 y1]. unfold transpose, pad_to_square.
  cbn [x_min y_min x_max y_max].
  rewrite (padding_sym (y1 - y0) (x1 - x0)).
  destruct (padding (x1 - x0) (y1 - y0)) as [p |]; [| reflexivity].
  unfold_boxes. split_tests; try reflexivity; lia.
Qed.

End PadMore.

Lemma pad_to_square_raises_iff_witness :
  exists e, pad_to_square (mkBox 0 0 100 5) 0 0 10 100 = Raises e.
Proof.
  apply (pad_to_square_raises_iff 0 0 10 100 (mkBox 0 0 100 5));
    [vm_compute; discriminate |].
  left. unfold width, height; simpl. lia.
Defined.

Lemma pad_to_square_closed_form_witness :
  exists p,
    padding (width (mkBox 0 0 10 5)) (height (mkBox 0 0 10 5)) = Some p /\
    (width (mkBox 0 0 10 5) > height (mkBox 0 0 10 5) ->
     y_min (mkBox 0 0 10 10)
     = Z.max 0 (Z.min (100 - width (mkBox 0 0 10 5))
                      (y_min (mkBox 0 0 10 5) - Qceiling p)) /\
     y_max (mkBox 0 0 10 10)
     = y_min (mkBox 0 0 10 10) + width (mkBox 0 0 10 5)).
Proof.
  destruct (pad_to_square_closed_form 0 0 100 100 (mkBox 0 0 10 5)
              (mkBox 0 0 10 10))
    as (p & Hp & Hy & _); [vm_compute; discriminate | reflexivity |].
  exists p. split; [exact Hp | exact Hy].
Defined.

Lemma pad_to_square_contains_input_witness :
  inside (mkBox 90 40 100 61) 0 0 100 100 /\
  pad_to_square (mkBox 90 40 100 61) 0 0 100 100
  = Returns (mkBox 79 40 100 61) /\
  (79 <= 90 /\ 100 <= 100 /\ 40 <= 40 /\ 61 <= 61).
Proof.
  assert (Hin : inside (mkBox 90 40 100 61) 0 0 100 100)
    by (unfold inside; simpl; lia).
  split; [exact Hin | split; [reflexivity |]].
  apply (pad_to_square_contains_input 0 0 100 100 (mkBox 90 40 100 61)
           (mkBox 79 40 100 61) Hin).
  reflexivity.
Defined.

Lemma pad_to_square_idempotent_witness :
  pad_to_square (mkBox 0 0 10 5) 0 0 100 100 = Returns (mkBox 0 0 10 10) /\
  pad_to_square (mkBox 0 0 10 10) 0 0 100 100 = Returns (mkBox 0 0 10 10).
Proof.
  split; [reflexivity |].
  apply (pad_to_square_idempotent 0 0 100 100 (mkBox 0 0 10 5));
    [vm_compute; discriminate | reflexivity].
Defined.

Lemma pad_to_square_failed_attempt_witness :
  y_max (box_after (mkBox 0 0 100 5)
                   (pad_to_square (mkBox 0 0 100 5) 0 0 10 100)) = 10 /\
  y_min (box_after (mkBox 0 0 100 5)
                   (pad_to_square (mkBox 0 0 100 5) 0 0 10 100))
  = 10 - width (mkBox 0 0 100 5) /\
  y_min (box_after (mkBox 0 0 100 5)
                   (pad_to_square (mkBox 0 0 100 5) 0 0 10 100)) < 0.
Proof.
  apply (pad_to_square_failed_attempt 0 0 10 100 (mkBox 0 0 100 5));
    [vm_compute; discriminate | vm_compute; reflexivity
     | vm_compute; reflexivity].
Defined.

(** * Further properties of the per-label loop *)

Section LoopMore.

Variables shape0 shape1 : Z.

(** Patch [i] comes from label [i] and from no other: the patches are
    numbered by the position of the label in the file, skipped labels
    included, and carry the class of that label and the box
    [pad_to_square] returned for its clamped box. *)
Theorem written_patch_origin labels i b class_label :
  In (WritePatch i b class_label) (extract_patch_data shape0 shape1 labels) ->
  exists label,
    nth_error labels i = Some label /\
    class_label = class label /\
    pad_to_square (confine_box (bbox label) 0 0 shape0 shape1)
                  0 0 shape0 shape1 = Returns b.
Proof.
  intros Hin.
  apply extract_patch_data_write in Hin as (label & Hnth & Hc & Hpad & _).
  now exists label.
Qed.

(** Every box that is cropped and written has a width other than zero and
    coordinates that are all between zero and the image shape: the slice
    [image[y_min:y_max, x_min:x_max]] has no negative index and does not
    reach past the image.  In an image of at most [2^52] rows and columns,
    where line 188 is exact, the box is a square as well. *)
Theorem written_patch_in_image labels i b class_label :
  In (WritePatch i b class_label) (extract_patch_data shape0 shape1 labels) ->
  (width b <> 0 /\
   0 <= x_min b /\ x_max b <= shape1 /\ 0 <= y_min b /\ y_max b <= shape0) /\
  (shape0 <= 2 ^ 52 -> shape1 <= 2 ^ 52 -> width b = height b).
Proof.
  intros Hin.
  apply extract_patch_data_write in Hin as (label & _ & _ & Hpad & Hw).
  apply pad_to_square_returns in Hpad as (p & Hp & -> & Hinside).
  split; [split; [exact Hw | exact Hinside] |]. intros H0 H1.
  destruct (pad_clamped shape0 shape1 (bbox label) H0 H1)
    as (p' & Hp' & Hsum).
  rewrite Hp in Hp'. injection Hp' as <-.
  now apply pad_box_square.
Qed.

(** For a label whose box has ordered coordinates, in an image of
    non-negative shape, the patch written has a positive side and contains
    the clamped box of the label. *)
Theorem written_patch_covers_label labels i label b class_label :
  0 <= shape0 -> 0 <= shape1 ->
  nth_error labels i = Some label ->
  x_min (bbox label) <= x_max (bbox label) ->
  y_min (bbox label) <= y_max (bbox label) ->
  In (WritePatch i b class_label) (extract_patch_data shape0 shape1 labels) ->
  0 < width b /\
  forall px py,
    covers (confine_box (bbox label) 0 0 shape0 shape1) px py ->
    covers b px py.
Proof.
  intros H0 H1 Hnth Hx Hy Hin.
  apply extract_patch_data_write in Hin as (label' & Hnth' & _ & Hpad & Hw).
  rewrite Hnth in Hnth'. injection Hnth' as <-.
  pose proof (confine_box_inside shape0 shape1 (bbox label) H0 H1) as Hinside.
  assert (Hord : 0 <= width (confine_box (bbox label) 0 0 shape0 shape1) /\
                 0 <= height (confine_box (bbox label) 0 0 shape0 shape1)).
  { rewrite confine_box_fields. unfold width, height;
      cbn [x_min y_min x_max y_max]. lia. }
  apply pad_to_square_returns in Hpad as (p & Hp & -> & Hin').
  apply padding_nonneg in Hp as [Hf Hc].
  pose proof (pad_box_contains 0 0 shape0 shape1 _ p Hf Hc Hinside Hin')
    as Hcont.
  unfold width, height in *. split.
  - lia.
  - unfold covers. intros px py. lia.
Qed.

(** In an image of between 0 and [2^52] rows and columns each label meets
    exactly one of four fates, decided by its clamped box alone: the
    cannot-fit warning when its longer dimension exceeds the image along
    the other axis; else the zero-area warning when its longer dimension
    is zero; else, when its longer dimension is negative (a label box
    inverted on both axes), an empty crop on which [cv2.resize] raises,
    which ends the loop; else the patch. *)
Theorem label_step_fate i label :
  0 <= shape0 <= 2 ^ 52 -> 0 <= shape1 <= 2 ^ 52 ->
  let clamped := confine_box (bbox label) 0 0 shape0 shape1 in
  exists p,
    padding (width clamped) (height clamped) = Some p /\
    let padded := pad_box clamped 0 0 shape0 shape1 p in
    (infeasible clamped 0 0 shape0 shape1 /\
     label_step shape0 shape1 i label
     = PrintCannotFit (ValueError padded clamped)) \/
    (~ infeasible clamped 0 0 shape0 shape1 /\
     longer_dimension clamped = 0 /\
     label_step shape0 shape1 i label = PrintZeroArea padded) \/
    (~ infeasible clamped 0 0 shape0 shape1 /\
     longer_dimension clamped < 0 /\
     label_step shape0 shape1 i label = RaiseResizeError padded) \/
    (~ infeasible clamped 0 0 shape0 shape1 /\
     longer_dimension clamped > 0 /\
     label_step shape0 shape1 i label = WritePatch i padded (class label)).
Proof.
  intros [H0 H0'] [H1 H1'] clamped.
  destruct (pad_clamped shape0 shape1 (bbox label) H0' H1')
    as (p & Hp & Hsum).
  fold clamped in Hp, Hsum. exists p. split; [exact Hp |]. intros padded.
  pose proof (confine_box_inside shape0 shape1 (bbox label) H0 H1) as Hin.
  fold clamped in Hin.
  pose proof (pad_box_out_of_bounds_iff 0 0 shape0 shape1 clamped p Hin Hsum)
    as Hiff.
  pose proof (pad_box_side 0 0 shape0 shape1 clamped p Hsum) as Hside.
  pose proof (pad_box_height 0 0 shape0 shape1 clamped p Hsum) as Hheight.
  pose proof (patch_empty_padded shape0 shape1 (bbox label) p H0 H1 Hsum)
    as Hempty.
  fold clamped in Hempty. fold padded in Hiff, Hside, Hheight, Hempty.
  unfold label_step, pad_to_square. fold clamped.
  fold (width clamped) (height clamped). rewrite Hp. fold padded.
  destruct (out_of_bounds padded 0 0 shape0 shape1) eqn:E.
  - left. split; [now apply Hiff | reflexivity].
  - right.
    assert (Hfeasible : ~ infeasible clamped 0 0 shape0 shape1).
    { intros Hinf. apply Hiff in Hinf. congruence. }
    apply out_of_bounds_false in E. rewrite (Hempty E).
    unfold width, height in Hside, Hheight.
    destruct (_ || _) eqn:Ez.
    + left. repeat split; [exact Hfeasible | lia].
    + right. destruct (longer_dimension clamped <=? 0) eqn:El.
      * left. repeat split; [exact Hfeasible | lia].
      * right. repeat split; [exact Hfeasible | lia].
Qed.

(** In an image of between 0 and [2^52] rows and columns, a cannot-fit
    warning is the event of a label whose clamped box, the box the warning
    reports as its input, has a longer dimension strictly larger than the
    smaller of the two image dimensions. *)
Theorem cannot_fit_exceeds_shorter_side labels tried original :
  0 <= shape0 <= 2 ^ 52 -> 0 <= shape1 <= 2 ^ 52 ->
  In (PrintCannotFit (ValueError tried original))
     (extract_patch_data shape0 shape1 labels) ->
  (exists i label,
      nth_error labels i = Some label /\
      label_step shape0 shape1 i label
      = PrintCannotFit (ValueError tried original) /\
      original = confine_box (bbox label) 0 0 shape0 shape1) /\
  Z.min shape0 shape1 < longer_dimension original <= Z.max shape0 shape1.
Proof.
  intros [H0 H0'] [H1 H1'] Hin. unfold extract_patch_data in Hin.
  apply label_loop_in in Hin as (i & label & Hnth & Hstep). simpl in Hstep.
  pose proof Hstep as Hpad.
  apply label_step_cannot_fit_inv in Hpad as (t & o & [= <- <-] & Hpad).
  apply pad_to_square_raises in Hpad as (p & Hp & -> & Ho & Hout).
  split; [exists i, label; now repeat split |]. rewrite Ho. clear Ho.
  destruct (pad_clamped shape0 shape1 (bbox label) H0' H1')
    as (p' & Hp' & Hsum).
  rewrite Hp in Hp'. injection Hp' as <-.
  pose proof (confine_box_inside shape0 shape1 (bbox label) H0 H1) as Hinside.
  pose proof (confine_box_dimensions shape0 shape1 (bbox label) H0 H1)
    as [Hw Hh].
  apply (pad_box_out_of_bounds_iff 0 0 shape0 shape1 _ p Hinside Hsum)
    in Hout.
  clear Hinside Hstep Hp Hsum.
  unfold infeasible, longer_dimension, shorter_axis_span in *.
  set (w := width _) in *. set (h := height _) in *. clearbody w h.
  split_tests; lia.
Qed.

(** In a square image of at most [2^52] rows and columns no label is
    dropped for not fitting: every event of the loop is the zero-area
    warning, a written patch, or the error of [cv2.resize] on an empty
    crop. *)
Theorem square_image_always_fits labels ev :
  0 <= shape0 <= 2 ^ 52 -> shape1 = shape0 ->
  In ev (extract_patch_data shape0 shape1 labels) ->
  (exists box, ev = PrintZeroArea box) \/
  (exists i box class_label, ev = WritePatch i box class_label) \/
  (exists box, ev = RaiseResizeError box).
Proof.
  intros [H0 H0'] Heq Hin. unfold extract_patch_data in Hin.
  assert (H1 : 0 <= shape1 <= 2 ^ 52) by (rewrite Heq; now split).
  apply label_loop_in in Hin as (i & label & _ & Hstep). simpl in Hstep.
  destruct (pad_clamped shape0 shape1 (bbox label) H0' (proj2 H1))
    as (p & Hp & Hsum).
  destruct ev as [e | box | j box class_label | | box].
  - exfalso.
    apply label_step_cannot_fit_inv in Hstep as (t & o & _ & Hpad).
    apply pad_to_square_raises in Hpad as (p' & Hp' & -> & _ & Hout).
    rewrite Hp in Hp'. injection Hp' as <-.
    pose proof (confine_box_inside shape0 shape1 (bbox label) H0 (proj1 H1))
      as Hinside.
    pose proof (confine_box_dimensions shape0 shape1 (bbox label)
                  H0 (proj1 H1)) as [Hw Hh].
    apply (pad_box_out_of_bounds_iff 0 0 shape0 shape1 _ p Hinside Hsum)
      in Hout.
    clear Hinside Hp Hsum.
    unfold infeasible, longer_dimension, shorter_axis_span in Hout.
    set (w := width _) in *. set (h := height _) in *. clearbody w h.
    split_tests; lia.
  - left. now exists box.
  - right; left. now exists j, box, class_label.
  - exfalso. apply label_step_overflow_inv in Hstep.
    apply pad_to_square_overflow in Hstep. congruence.
  - right; right. now exists box.
Qed.

End LoopMore.

Section LabelOutside.

Variables shape0 shape1 : Z.

(** A label whose box lies entirely to the left of the image, and spans
    rows of the image, is not dropped although it has no pixel in the
    image: clamping flattens it onto column 0, padding opens it again to a
    square of its own height against the left edge, and that square is
    written as the patch, whenever the image is at least that wide (and
    the height of the box is at most [2^53], where line 188 is exact). *)
Theorem label_left_of_image_written i label :
  x_min (bbox label) <= x_max (bbox label) -> x_max (bbox label) <= 0 ->
  0 <= y_min (bbox label) -> y_min (bbox label) < y_max (bbox label) ->
  y_max (bbox label) <= shape0 ->
  y_max (bbox label) - y_min (bbox label) <= shape1 ->
  y_max (bbox label) - y_min (bbox label) <= 2 ^ 53 ->
  (forall px py,
      ~ (covers (bbox label) px py /\
         covers (mkBox 0 0 shape1 shape0) px py)) /\
  label_step shape0 shape1 i label
  = WritePatch i (mkBox 0 (y_min (bbox label))
                        (y_max (bbox label) - y_min (bbox label))
                        (y_max (bbox label)))
               (class label).
Proof.
  intros Hx Hleft Hy0 Hy Hy1 Hfit Hexact.
  split; [unfold covers; cbn [x_min y_min x_max y_max]; lia |].
  unfold label_step. destruct (bbox label) as [x0 y0 x1 y1].
  cbn [x_min y_min x_max y_max] in *.
  rewrite confine_box_fields; cbn [x_min y_min x_max y_max].
  replace (Z.max 0 (Z.min shape1 x0)) with 0 by lia.
  replace (Z.max 0 (Z.min shape1 x1)) with 0 by lia.
  replace (Z.max 0 (Z.min shape0 y0)) with y0 by lia.
  replace (Z.max 0 (Z.min shape0 y1)) with y1 by lia.
  assert (Hpad : pad_to_square (mkBox 0 y0 0 y1) 0 0 shape0 shape1
                 = Returns (mkBox 0 y0 (y1 - y0) y1)).
  { apply pad_to_square_returns.
    destruct (padding_exact (width (mkBox 0 y0 0 y1))
                            (height (mkBox 0 y0 0 y1)))
      as (p & Hp & Hsum & Hodd).
    { unfold width, height; cbn [x_min y_min x_max y_max]. lia. }
    pose proof (Z.mod_pos_bound
                  (Z.abs (width (mkBox 0 y0 0 y1) - height (mkBox 0 y0 0 y1)))
                  2 ltac:(lia)) as Hmod.
    exists p. split; [exact Hp |]. clear Hp. split.
    - pad_arith; f_equal; lia.
    - unfold inside; cbn [x_min y_min x_max y_max]. lia. }
  rewrite Hpad; cbn [x_min y_min x_max y_max].
  destruct (_ || _) eqn:E; [lia |].
  unfold patch_empty, slice_len; cbn [x_min y_min x_max y_max].
  split_tests; solve [reflexivity | lia].
Qed.

End LabelOutside.

(** Beyond [2^52] rows and columns the box written need not be a square:
    for a label of width [2^53 + 1] and height 0 the padding of line 188
    is rounded to [2^52], and the patch is one row short. *)
Lemma written_patch_not_square :
  extract_patch_data (2 ^ 60) (2 ^ 60)
    [mkLabel "Car" (mkBox 0 0 (2 ^ 53 + 1) 0)]
  = [WritePatch 0 (mkBox 0 0 (2 ^ 53 + 1) (2 ^ 53)) "Car"] /\
  width (mkBox 0 0 (2 ^ 53 + 1) (2 ^ 53))
  <> height (mkBox 0 0 (2 ^ 53 + 1) (2 ^ 53)).
Proof. split; [vm_compute; reflexivity | vm_compute; discriminate]. Qed.

(** Likewise a label to the left of the image with a height of [2^53 + 1]
    is written as a patch one column short of its height. *)
Lemma label_left_of_image_not_square :
  label_step (2 ^ 60) (2 ^ 60) 0
    (mkLabel "Car" (mkBox (-5) 0 (-1) (2 ^ 53 + 1)))
  = WritePatch 0 (mkBox 0 0 (2 ^ 53) (2 ^ 53 + 1)) "Car".
Proof. vm_compute; reflexivity. Qed.

Lemma written_patch_origin_witness :
  exists label,
    nth_error [mkLabel "Van" (mkBox 5 5 5 5);
               mkLabel "Car" (mkBox (-20) 10 (-5) 30)] 1 = Some label /\
    "Car"%string = class label /\
    pad_to_square (confine_box (bbox label) 0 0 100 100) 0 0 100 100
    = Returns (mkBox 0 10 20 30).
Proof.
  apply (written_patch_origin 100 100
           [mkLabel "Van" (mkBox 5 5 5 5);
            mkLabel "Car" (mkBox (-20) 10 (-5) 30)]
           1%nat (mkBox 0 10 20 30) "Car").
  right; left; reflexivity.
Defined.

Lemma written_patch_in_image_witness :
  (width (mkBox 0 10 20 30) <> 0 /\
   0 <= 0 /\ 20 <= 100 /\ 0 <= 10 /\ 30 <= 100) /\
  (100 <= 2 ^ 52 -> 100 <= 2 ^ 52 ->
   width (mkBox 0 10 20 30) = height (mkBox 0 10 20 30)).
Proof.
  apply (written_patch_in_image 100 100
           [mkLabel "Car" (mkBox (-20) 10 (-5) 30)]
           0%nat (mkBox 0 10 20 30) "Car").
  left; reflexivity.
Defined.

Lemma written_patch_covers_label_witness :
  0 < width (mkBox 600 155 700 255).
Proof.
  refine (proj1 (written_patch_covers_label 375 1242
                   [mkLabel "Car" (mkBox 600 180 700 230)] 0%nat
                   (mkLabel "Car" (mkBox 600 180 700 230))
                   (mkBox 600 155 700 255) "Car" _ _ _ _ _ _)).
  - lia.
  - lia.
  - reflexivity.
  - simpl; lia.
  - simpl; lia.
  - left; reflexivity.
Defined.

Lemma label_step_fate_witness :
  exists p,
    padding (width (confine_box (mkBox 50 30 20 10) 0 0 100 100))
            (height (confine_box (mkBox 50 30 20 10) 0 0 100 100))
    = Some p.
Proof.
  destruct (label_step_fate 100 100 0 (mkLabel "Car" (mkBox 50 30 20 10)))
    as (p & Hp & _); [lia | lia |].
  exists p. exact Hp.
Defined.

Lemma cannot_fit_exceeds_shorter_side_witness :
  Z.min 375 1242 < longer_dimension (mkBox 100 0 600 100)
  <= Z.max 375 1242.
Proof.
  refine (proj2 (cannot_fit_exceeds_shorter_side 375 1242
                   [mkLabel "Truck" (mkBox 100 0 600 100)]
                   (mkBox 100 (-125) 600 375) (mkBox 100 0 600 100)
                   _ _ _)); [lia | lia | left; reflexivity].
Defined.

Lemma square_image_always_fits_witness :
  (exists box, WritePatch 0 (mkBox 10 0 64 54) "Truck" = PrintZeroArea box) \/
  (exists i box class_label,
      WritePatch 0 (mkBox 10 0 64 54) "Truck"
      = WritePatch i box class_label) \/
  (exists box, WritePatch 0 (mkBox 10 0 64 54) "Truck" = RaiseResizeError box).
Proof.
  apply (square_image_always_fits 64 64
           [mkLabel "Truck" (mkBox 10 0 90 20)]);
    [lia | reflexivity | left; reflexivity].
Defined.

Lemma label_left_of_image_written_witness :
  label_step 375 1242 3 (mkLabel "Car" (mkBox (-20) 10 (-5) 30))
  = WritePatch 3 (mkBox 0 10 20 30) "Car".
Proof.
  refine (proj2 (label_left_of_image_written 375 1242 3
                   (mkLabel "Car" (mkBox (-20) 10 (-5) 30))
                   _ _ _ _ _ _ _)); simpl; lia.
Defined.

(** * Properties of [convert_label_to_dict] *)

Section Parser.

Context `{Builtins}.

Lemma for_each_length {A B : Type} (f : A -> parsed B) l : forall ys,
  for_each f l = Parsed ys -> List.length ys = List.length l.
Proof.
  induction l as [| x rest IH]; intros ys Hys; simpl in Hys.
  - now injection Hys as <-.
  - destruct (f x) as [y |]; [| discriminate]. cbn [bind] in Hys.
    destruct (for_each f rest) as [ys' |]; [| discriminate].
    cbn [bind] in Hys. injection Hys as <-. simpl. now rewrite (IH ys').
Qed.

Lemma item_parsed content k s :
  item content k = Parsed s <-> nth_error content k = Some s.
Proof.
  unfold item. destruct (nth_error content k); split; congruence.
Qed.

Lemma split_not_nil sep s : split sep s <> [].
Proof.
  destruct s as [| c rest]; simpl; [discriminate |].
  destruct (Ascii.eqb c sep); [discriminate |].
  destruct (split sep rest); discriminate.
Qed.

(** Every way through [convert_label_to_dict] that ends in a dictionary. *)
Lemma convert_label_to_dict_parsed label d :
  convert_label_to_dict label = Parsed d ->
  let content := split " " (py_strip label) in
  exists c14 bbox dimensions location,
    nth_error content 0 = Some (LabelDict.class d) /\
    nth_error content 14 = Some c14 /\
    for_each to_rounded (slice content 4 8) = Parsed bbox /\
    for_each to_float (slice content 8 11) = Parsed dimensions /\
    for_each to_float (slice content 11 14) = Parsed location /\
    LabelDict.bbox d = bbox /\
    LabelDict.dimensions d = dimensions /\
    LabelDict.location d = location.
Proof.
  intros Hd content. unfold convert_label_to_dict in Hd. fold content in Hd.
  destruct (item content 0) as [c0 |] eqn:E0; [| discriminate].
  cbn [bind] in Hd.
  destruct (item content 1) as [c1 |]; [| discriminate]. cbn [bind] in Hd.
  destruct (to_float c1); [| discriminate]. cbn [bind] in Hd.
  destruct (item content 2) as [c2 |]; [| discriminate]. cbn [bind] in Hd.
  destruct (to_int c2); [| discriminate]. cbn [bind] in Hd.
  destruct (item content 3) as [c3 |]; [| discriminate]. cbn [bind] in Hd.
  destruct (to_float c3); [| discriminate]. cbn [bind] in Hd.
  destruct (for_each to_rounded _) as [bbox |]; [| discriminate].
  cbn [bind] in Hd.
  destruct (for_each to_float (slice content 8 11)) as [dimensions |];
    [| discriminate].
  cbn [bind] in Hd.
  destruct (for_each to_float (slice content 11 14)) as [location |];
    [| discriminate].
  cbn [bind] in Hd.
  destruct (item content 14) as [c14 |] eqn:E14; [| discriminate].
  cbn [bind] in Hd.
  destruct (to_float c14); [| discriminate]. cbn [bind] in Hd.
  injection Hd as <-. cbn.
  apply item_parsed in E0, E14.
  exists c14, bbox, dimensions, location. now repeat split.
Qed.

Lemma slice_length content i j :
  (j <= List.length content)%nat ->
  List.length (slice content i j) = (j - i)%nat.
Proof.
  intros Hj. unfold slice. rewrite length_firstn, length_skipn. lia.
Qed.

(** A line with fewer than fifteen fields between single spaces never
    gives a dictionary: an exception is raised, whatever the fields are. *)
Theorem convert_label_to_dict_needs_15_fields label :
  (List.length (split " " (py_strip label)) < 15)%nat ->
  exists e, convert_label_to_dict label = Failed e.
Proof.
  intros Hshort.
  destruct (convert_label_to_dict label) as [d | e] eqn:E;
    [| now exists e].
  apply convert_label_to_dict_parsed in E
    as (c14 & _ & _ & _ & _ & E14 & _).
  assert (nth_error (split " " (py_strip label)) 14 <> None) as Hlt
      by congruence.
  apply nth_error_Some in Hlt. lia.
Qed.

(** A dictionary that is returned holds the first field as its class,
    exactly four integers as [bbox], the roundings of the fields 4 to 7 in
    their order, and three numbers each as [dimensions] and [location]. *)
Theorem convert_label_to_dict_shape label d :
  convert_label_to_dict label = Parsed d ->
  let content := split " " (py_strip label) in
  (15 <= List.length content)%nat /\
  nth_error content 0 = Some (LabelDict.class d) /\
  (exists c4 c5 c6 c7 b0 b1 b2 b3,
      nth_error content 4 = Some c4 /\ nth_error content 5 = Some c5 /\
      nth_error content 6 = Some c6 /\ nth_error content 7 = Some c7 /\
      to_rounded c4 = Parsed b0 /\ to_rounded c5 = Parsed b1 /\
      to_rounded c6 = Parsed b2 /\ to_rounded c7 = Parsed b3 /\
      LabelDict.bbox d = [b0; b1; b2; b3]) /\
  List.length (LabelDict.dimensions d) = 3%nat /\
  List.length (LabelDict.location d) = 3%nat.
Proof.
  intros Hd content.
  apply convert_label_to_dict_parsed in Hd
    as (c14 & bbox & dimensions & location
        & E0 & E14 & Hbbox & Hdim & Hloc & -> & -> & ->).
  fold content in E0, E14, Hbbox, Hdim, Hloc.
  assert (Hlen : (15 <= List.length content)%nat).
  { assert (nth_error content 14 <> None) as Hlt by congruence.
    apply nth_error_Some in Hlt. lia. }
  split; [exact Hlen |]. split; [exact E0 |].
  apply for_each_length in Hdim, Hloc.
  rewrite slice_length in Hdim, Hloc by lia.
  split; [| split; assumption].
  destruct content as [| c0 [| c1 [| c2 [| c3 [| c4 [| c5 [| c6 [| c7 rest]]]]]]]];
    simpl in Hlen; try lia.
  cbn in Hbbox.
  destruct (to_rounded c4) as [b0 |] eqn:R0; [| discriminate].
  cbn [bind] in Hbbox.
  destruct (to_rounded c5) as [b1 |] eqn:R1; [| discriminate].
  cbn [bind] in Hbbox.
  destruct (to_rounded c6) as [b2 |] eqn:R2; [| discriminate].
  cbn [bind] in Hbbox.
  destruct (to_rounded c7) as [b3 |] eqn:R3; [| discriminate].
  cbn [bind] in Hbbox.
  injection Hbbox as <-.
  exists c4, c5, c6, c7, b0, b1, b2, b3. now repeat split.
Qed.

End Parser.

Section ParserMore.

Context `{Builtins}.

Ltac fifteen_fields content Hlen :=
  do 15 (destruct content as [| ? content]; [simpl in Hlen; lia |]).

Ltac parse_fields H :=
  repeat match type of H with
         | context [py_float ?c] =>
             destruct (py_float c) eqn:?; cbn in H; try discriminate H
         | context [py_int ?c] =>
             destruct (py_int c) eqn:?; cbn in H; try discriminate H
         | context [py_round ?x] =>
             destruct (py_round x) eqn:?; cbn in H; try discriminate H
         end.

(** The fields past the fifteenth are never read: two lines that agree on
    at least fifteen leading fields are converted alike, whatever follows
    those fields in either of them. *)
Theorem convert_label_to_dict_ignores_tail l1 l2 content tail1 tail2 :
  split " " (py_strip l1) = (content ++ tail1)%list ->
  split " " (py_strip l2) = (content ++ tail2)%list ->
  (15 <= List.length content)%nat ->
  convert_label_to_dict l2 = convert_label_to_dict l1.
Proof.
  intros H1 H2 Hlen. unfold convert_label_to_dict. rewrite H1, H2.
  clear H1 H2. fifteen_fields content Hlen. reflexivity.
Qed.

(** A line that [strip] leaves empty, such as a blank line, raises the
    [IndexError] of [content[1]]. *)
Theorem convert_label_to_dict_blank label :
  py_strip label = EmptyString ->
  convert_label_to_dict label = Failed IndexError.
Proof.
  intros Hblank. unfold convert_label_to_dict. now rewrite Hblank.
Qed.

(** [convert_label_to_dict] returns a dictionary exactly for the lines with
    at least fifteen fields of which [float] accepts the fields 1, 3 and 8
    to 14, [int] the field 2, and [float] then [round] the fields 4 to 7. *)
Theorem convert_label_to_dict_succeeds_iff label :
  (exists d, convert_label_to_dict label = Parsed d) <->
  exists c0 c1 c2 c3 c4 c5 c6 c7 c8 c9 c10 c11 c12 c13 c14 rest,
    split " " (py_strip label)
    = c0 :: c1 :: c2 :: c3 :: c4 :: c5 :: c6 :: c7 :: c8 :: c9 :: c10
         :: c11 :: c12 :: c13 :: c14 :: rest /\
    py_float c1 <> None /\ py_int c2 <> None /\ py_float c3 <> None /\
    (forall c, In c [c4; c5; c6; c7] ->
               exists x, py_float c = Some x /\ py_round x <> None) /\
    (forall c, In c [c8; c9; c10; c11; c12; c13; c14] -> py_float c <> None).
Proof.
  split.
  - intros [d Hd].
    pose proof (convert_label_to_dict_shape label d Hd) as [Hlen _].
    unfold convert_label_to_dict in Hd.
    destruct (split " " (py_strip label)) as [| c0 content] eqn:E;
      [simpl in Hlen; lia |].
    simpl in Hlen. assert (Hlen' : (14 <= List.length content)%nat) by lia.
    clear Hlen.
    do 14 (destruct content as [| ? content]; [simpl in Hlen'; lia |]).
    do 16 eexists. split; [reflexivity |].
    cbn in Hd. unfold to_rounded, to_float, to_int in Hd. cbn in Hd.
    parse_fields Hd.
    repeat split; try congruence.
    + intros c [<- | [<- | [<- | [<- | []]]]]; eexists; split;
        try eassumption; congruence.
    + intros c [<- | [<- | [<- | [<- | [<- | [<- | [<- | []]]]]]]];
        congruence.
  - intros (c0 & c1 & c2 & c3 & c4 & c5 & c6 & c7 & c8 & c9 & c10 & c11
            & c12 & c13 & c14 & rest & E & H1 & H2 & H3 & Hbox & Hfloat).
    unfold convert_label_to_dict. rewrite E. cbn.
    unfold to_rounded, to_float, to_int.
    destruct (py_float c1); [| congruence].
    destruct (py_int c2); [| congruence].
    destruct (py_float c3); [| congruence]. cbn.
    destruct (Hbox c4 ltac:(simpl; tauto)) as (x4 & -> & R4).
    destruct (Hbox c5 ltac:(simpl; tauto)) as (x5 & -> & R5).
    destruct (Hbox c6 ltac:(simpl; tauto)) as (x6 & -> & R6).
    destruct (Hbox c7 ltac:(simpl; tauto)) as (x7 & -> & R7).
    cbn.
    destruct (py_round x4); [| congruence]. cbn.
    destruct (py_round x5); [| congruence]. cbn.
    destruct (py_round x6); [| congruence]. cbn.
    destruct (py_round x7); [| congruence]. cbn.
    pose proof (Hfloat c8 ltac:(simpl; tauto)).
    pose proof (Hfloat c9 ltac:(simpl; tauto)).
    pose proof (Hfloat c10 ltac:(simpl; tauto)).
    pose proof (Hfloat c11 ltac:(simpl; tauto)).
    pose proof (Hfloat c12 ltac:(simpl; tauto)).
    pose proof (Hfloat c13 ltac:(simpl; tauto)).
    pose proof (Hfloat c14 ltac:(simpl; tauto)).
    destruct (py_float c8); [| congruence]. cbn.
    destruct (py_float c9); [| congruence]. cbn.
    destruct (py_float c10); [| congruence]. cbn.
    destruct (py_float c11); [| congruence]. cbn.
    destruct (py_float c12); [| congruence]. cbn.
    destruct (py_float c13); [| congruence]. cbn.
    destruct (py_float c14); [| congruence]. cbn.
    eexists. reflexivity.
Qed.

(** The list under ['bbox'] always has the four entries that [confine_box]
    and [pad_to_square] index: reading a line fails exactly when
    [convert_label_to_dict] fails, with the same exception. *)
Theorem label_of_line_fails_iff line e :
  label_of_line line = Failed e <-> convert_label_to_dict line = Failed e.
Proof.
  unfold label_of_line.
  destruct (convert_label_to_dict line) as [d | e'] eqn:E; cbn [bind];
    [| split; intros [= ->]; reflexivity].
  apply convert_label_to_dict_shape in E
    as (_ & _ & (c4 & c5 & c6 & c7 & b0 & b1 & b2 & b3 & Hb) & _).
  decompose [and] Hb. replace (LabelDict.bbox d) with [b0; b1; b2; b3].
  cbn. split; discriminate.
Qed.

End ParserMore.

(** * The loop over the lines of a label file *)

Section Lines.

Context `{Builtins}.
Variables shape0 shape1 : Z.

Lemma convert_failed_label_of_line line e :
  convert_label_to_dict line = Failed e -> label_of_line line = Failed e.
Proof. unfold label_of_line. now intros ->. Qed.

Lemma lines_loop_parsed lines : forall labels k,
  Forall2 (fun line label => label_of_line line = Parsed label) lines labels ->
  lines_loop shape0 shape1 k lines = (label_loop shape0 shape1 k labels, None).
Proof.
  induction lines as [| line rest IH]; intros labels k Hall;
    inversion Hall as [| ? label ? labels' Hline Hrest]; subst; simpl.
  - reflexivity.
  - rewrite Hline. destruct (ends_loop _); [reflexivity |].
    now rewrite (IH labels' (S k) Hrest).
Qed.

Lemma lines_loop_abort good : forall labels k bad e rest,
  Forall2 (fun line label => label_of_line line = Parsed label) good labels ->
  label_of_line bad = Failed e ->
  lines_loop shape0 shape1 k (good ++ bad :: rest)
  = (label_loop shape0 shape1 k labels,
     if existsb ends_loop (label_loop shape0 shape1 k labels)
     then None else Some e).
Proof.
  induction good as [| line good' IH]; intros labels k bad e rest Hall Hbad;
    inversion Hall as [| ? label ? labels' Hline Hrest]; subst; simpl.
  - now rewrite Hbad.
  - rewrite Hline. destruct (ends_loop _) eqn:E; simpl; rewrite E.
    + reflexivity.
    + now rewrite (IH labels' (S k) bad e rest Hrest Hbad).
Qed.

(** When every line of the file is converted, the loop over the lines does
    what the loop over the labels does, label by label, and no exception
    of the conversion ends it. *)
Theorem extract_patch_lines_all_parsed lines labels :
  Forall2 (fun line label => label_of_line line = Parsed label) lines labels ->
  extract_patch_lines shape0 shape1 lines
  = (extract_patch_data shape0 shape1 labels, None).
Proof. apply lines_loop_parsed. Qed.

(** Nothing catches what [convert_label_to_dict] raises.  The labels
    before the first line it rejects are dealt with as usual; unless one of
    them has already ended the loop with an exception of its own (the
    [OverflowError] of line 188, the error of [cv2.resize] on an empty
    crop), the loop then ends with the exception of that line, and in
    either case the lines after it are never read, whatever they hold. *)
Theorem extract_patch_lines_aborts good labels bad e rest :
  Forall2 (fun line label => label_of_line line = Parsed label) good labels ->
  convert_label_to_dict bad = Failed e ->
  extract_patch_lines shape0 shape1 (good ++ bad :: rest)
  = (extract_patch_data shape0 shape1 labels,
     if existsb ends_loop (extract_patch_data shape0 shape1 labels)
     then None else Some e).
Proof.
  intros Hall Hbad. apply lines_loop_abort; [exact Hall |].
  now apply convert_failed_label_of_line.
Qed.

End Lines.

Lemma convert_label_to_dict_needs_15_fields_witness :
  exists e,
    @convert_label_to_dict
      (Build_Builtins Z (fun s => s) (fun _ => Some 0) (fun _ => Some 0)
                      (fun x => Some x))
      "Car 0.00 0 1.85 387.63 181.54 423.81 203.12" = Failed e.
Proof.
  apply (@convert_label_to_dict_needs_15_fields
           (Build_Builtins Z (fun s => s) (fun _ => Some 0) (fun _ => Some 0)
                           (fun x => Some x))).
  vm_compute. lia.
Defined.

Lemma convert_label_to_dict_shape_witness :
  (15 <= List.length
           (split " " "Car 0.00 0 1.85 387 181 423 203 1.6 1.5 3.6 1 2 3 1.5"))%nat.
Proof.
  refine (proj1 (@convert_label_to_dict_shape
                   (Build_Builtins Z (fun s => s) (fun _ => Some 0)
                                   (fun _ => Some 0) (fun x => Some x))
                   "Car 0.00 0 1.85 387 181 423 203 1.6 1.5 3.6 1 2 3 1.5"
                   _ _)).
  reflexivity.
Defined.

Lemma convert_label_to_dict_ignores_tail_witness :
  @convert_label_to_dict
    (Build_Builtins Z (fun s => s) (fun _ => Some 0) (fun _ => Some 0)
                    (fun x => Some x))
    "Car 0.00 0 1.85 387 181 423 203 1.6 1.5 3.6 1 2 3 1.5 0.97"
  = @convert_label_to_dict
      (Build_Builtins Z (fun s => s) (fun _ => Some 0) (fun _ => Some 0)
                      (fun x => Some x))
      "Car 0.00 0 1.85 387 181 423 203 1.6 1.5 3.6 1 2 3 1.5 0.31 x".
Proof.
  apply (@convert_label_to_dict_ignores_tail
           (Build_Builtins Z (fun s => s) (fun _ => Some 0) (fun _ => Some 0)
                           (fun x => Some x))
           _ _
           ["Car"; "0.00"; "0"; "1.85"; "387"; "181"; "423"; "203"; "1.6";
            "1.5"; "3.6"; "1"; "2"; "3"; "1.5"]%string
           ["0.31"; "x"]%string ["0.97"%string]);
    [reflexivity | reflexivity | simpl; lia].
Defined.

Lemma convert_label_to_dict_blank_witness :
  @convert_label_to_dict
    (Build_Builtins Z (fun s => s) (fun _ => Some 0) (fun _ => Some 0)
                    (fun x => Some x))
    "" = Failed IndexError.
Proof.
  apply (@convert_label_to_dict_blank
           (Build_Builtins Z (fun s => s) (fun _ => Some 0) (fun _ => Some 0)
                           (fun x => Some x))).
  reflexivity.
Defined.

Lemma extract_patch_lines_all_parsed_witness :
  @extract_patch_lines
    (Build_Builtins Z (fun s => s) (fun _ => Some 0) (fun _ => Some 0)
                    (fun x => Some x))
    375 1242 ["Car 0.00 0 1.85 387 181 423 203 1.6 1.5 3.6 1 2 3 1.5"%string]
  = (extract_patch_data 375 1242 [mkLabel "Car" (mkBox 0 0 0 0)], None).
Proof.
  apply (@extract_patch_lines_all_parsed
           (Build_Builtins Z (fun s => s) (fun _ => Some 0) (fun _ => Some 0)
                           (fun x => Some x))).
  repeat constructor.
Defined.

Lemma extract_patch_lines_aborts_witness :
  @extract_patch_lines
    (Build_Builtins Z (fun s => s) (fun _ => Some 0) (fun _ => Some 0)
                    (fun x => Some x))
    375 1242
    (["Car 0.00 0 1.85 387 181 423 203 1.6 1.5 3.6 1 2 3 1.5"%string]
       ++ ""%string
       :: ["Van 0.00 0 1.85 387 181 423 203 1.6 1.5 3.6 1 2 3 1.5"%string])
  = (extract_patch_data 375 1242 [mkLabel "Car" (mkBox 0 0 0 0)],
     if existsb ends_loop
          (extract_patch_data 375 1242 [mkLabel "Car" (mkBox 0 0 0 0)])
     then None else Some IndexError).
Proof.
  apply (@extract_patch_lines_aborts
           (Build_Builtins Z (fun s => s) (fun _ => Some 0) (fun _ => Some 0)
                           (fun x => Some x)));
    [repeat constructor | reflexivity].
Defined.
